(** * server.js: image extraction endpoint

    A shallow embedding of [server.js]: the in-page extraction script run by
    [page.evaluate] (four detection methods followed by the [uniqueImages]
    filter), the scroll helper, the lazily created browser handle and the
    three HTTP handlers; each handler run to completion, and the handlers of
    several requests in flight, interleaved where they await.

    Conventions.
    - A JavaScript string is a [string]; a character stands for the code unit
      of the same number, so the strings covered are those of code units
      below 256.
    - A JavaScript number that holds a pixel count, an index or a delay is
      a [Z].
    - [undefined] is [None] at an option type.
    - Values the browser computes (resolved [src], natural size, computed
      style, [dataset]) are fields of the element record: the script only
      reads them. *)

From Stdlib Require Import List String Ascii ZArith Lia Bool Permutation Arith.
From Stdlib Require Import DecimalString.
Import ListNotations.

Set Warnings "-register-all".
Local Open Scope string_scope.
Local Open Scope Z_scope.

(** ** JavaScript string primitives used by the script *)

Module Js.

(** [s.startsWith(p)] *)
Definition startsWith (s p : string) : bool := String.prefix p s.

(** [s.includes(p)] *)
Fixpoint includes (s p : string) : bool :=
  if String.prefix p s then true
  else match s with
       | EmptyString => false
       | String _ s' => includes s' p
       end.

(** Truthiness of a string-valued property that may be [undefined]. *)
Definition truthy (v : option string) : bool :=
  match v with
  | Some (String _ _) => true
  | _ => false
  end.

(** [a || b] on such values. *)
Definition or (a b : option string) : option string :=
  if truthy a then a else b.

(** [a || b] on numbers: zero is the only falsy integer. *)
Definition orZ (a b : Z) : Z := if a =? 0 then b else a.

(** Template literal [`${prefix}${n}`] for an array index. *)
Definition withIndex (prefix : string) (n : nat) : string :=
  prefix ++ NilEmpty.string_of_uint (Nat.to_uint n).

(** [s.split(sep)] for a one-character separator. [cur] is the part being
    read, in reverse. *)
Fixpoint rev_string (acc s : string) : string :=
  match s with
  | EmptyString => acc
  | String c s' => rev_string (String c acc) s'
  end.

Fixpoint split_go (sep : ascii) (cur : string) (s : string) : list string :=
  match s with
  | EmptyString => [rev_string "" cur]
  | String c s' =>
      if Ascii.eqb c sep then rev_string "" cur :: split_go sep "" s'
      else split_go sep (String c cur) s'
  end.

Definition split (s : string) (sep : ascii) : list string := split_go sep "" s.

(** White space and line terminators removed by [trim]: TAB, LF, VT, FF, CR,
    SPACE and NBSP are the ones below 256. *)
Definition isWhite (c : ascii) : bool :=
  let n := nat_of_ascii c in
  (Nat.leb 9 n && Nat.leb n 13) || Nat.eqb n 32 || Nat.eqb n 160.

Fixpoint trimStart (s : string) : string :=
  match s with
  | String c s' => if isWhite c then trimStart s' else s
  | EmptyString => EmptyString
  end.

Definition trim (s : string) : string :=
  rev_string "" (trimStart (rev_string "" (trimStart s))).

(** [a[0]] of a non-empty array of strings. *)
Definition first (l : list string) : string := hd "" l.

(** [Array.prototype.findIndex]: the first index at which [p] holds, or -1. *)
Fixpoint findIndex {A} (p : A -> bool) (l : list A) : Z :=
  match l with
  | [] => -1
  | x :: t =>
      if p x then 0
      else let r := findIndex p t in if r =? -1 then -1 else r + 1
  end.

(** [Array.prototype.filter] with the index and the array passed to the
    callback; [i] is the index of the head of [l] in [self]. *)
Fixpoint filter_from {A} (f : A -> nat -> list A -> bool)
         (self : list A) (i : nat) (l : list A) : list A :=
  match l with
  | [] => []
  | x :: t =>
      if f x i self then x :: filter_from f self (S i) t
      else filter_from f self (S i) t
  end.

Definition filter {A} (f : A -> nat -> list A -> bool) (l : list A) : list A :=
  filter_from f l 0 l.

(** [forEach] whose callback pushes zero or one entry on a shared array:
    the entries pushed, in order. [i] is the index of the head of [l]. *)
Fixpoint forEach_from {A B} (f : A -> nat -> list B) (i : nat) (l : list A)
  : list B :=
  match l with
  | [] => []
  | x :: t => f x i ++ forEach_from f (S i) t
  end.

Definition forEach {A B} (l : list A) (f : A -> nat -> list B) : list B :=
  forEach_from f 0 l.

End Js.

(** ** The regular expression of Method 2

    The pattern is: the literal url and an opening parenthesis, an optional
    quote (double or single), a lazy group of any characters, an optional
    quote, a closing parenthesis. [match] without the [g] flag returns the
    leftmost match; [urlMatch] is its capture group 1, [None] when [match]
    returns [null]. The matcher follows the backtracking order: the optional
    quotes are greedy, the group is lazy, and the dot does not match a line
    terminator. *)

Module UrlRegex.

Definition isQuote (c : ascii) : bool :=
  Ascii.eqb c "034"%char || Ascii.eqb c "039"%char.

Definition isLineTerminator (c : ascii) : bool :=
  Ascii.eqb c "010"%char || Ascii.eqb c "013"%char.

(** The tail (optional quote, closing parenthesis) matches at the head of
    [r]. *)
Definition closes (r : string) : bool :=
  match r with
  | String c r' =>
      if isQuote c
      then match r' with
           | String d _ => Ascii.eqb d ")"%char
           | EmptyString => false
           end
      else Ascii.eqb c ")"%char
  | EmptyString => false
  end.

(** The lazy group followed by the tail, at the head of [r]: the shortest
    capture after which the tail matches. *)
Fixpoint lazyGroup (r : string) : option string :=
  if closes r then Some ""
  else match r with
       | String c r' =>
           if isLineTerminator c then None
           else option_map (String c) (lazyGroup r')
       | EmptyString => None
       end.

(** What follows the opening parenthesis, at the head of [r]: the opening
    quote is taken when present, and given back if the rest then fails. *)
Definition afterParen (r : string) : option string :=
  match r with
  | String c r' =>
      if isQuote c
      then match lazyGroup r' with
           | Some g => Some g
           | None => lazyGroup r
           end
      else lazyGroup r
  | EmptyString => lazyGroup r
  end.

Definition drop4 (s : string) : string :=
  match s with
  | String _ (String _ (String _ (String _ r))) => r
  | _ => ""
  end.

Fixpoint urlMatch (s : string) : option string :=
  let here := if String.prefix "url(" s then afterParen (drop4 s) else None in
  match here with
  | Some g => Some g
  | None => match s with
            | String _ s' => urlMatch s'
            | EmptyString => None
            end
  end.

End UrlRegex.

(** [v !== undefined], [v !== null] *)
Definition isSome {A} (o : option A) : bool :=
  match o with Some _ => true | None => false end.

(** ** The document seen by the script *)

Module Dom.

(** What the script reads from an element. [tagName] is the upper-case name
    an HTML element reports; [src], [srcset] are the reflected properties
    ([None] on elements that have none); [alt] and the four sizes are read on
    [img] elements only; [backgroundImage] is the computed style;
    [hasSrcsetAttr] says whether the attribute selector for [srcset] matches;
    the [data_*] fields are [element.dataset.*], defined exactly when the
    attribute is present. *)
Record elem := {
  tagName : string;
  src : option string;
  alt : string;
  naturalWidth : Z;
  width : Z;
  naturalHeight : Z;
  height : Z;
  backgroundImage : string;
  hasSrcsetAttr : bool;
  srcset : option string;
  data_src : option string;
  data_lazy_src : option string;
  data_original : option string;
  data_image : option string;
  data_bg : option string
}.

(** Element tree; the children are in document order. *)
Inductive node := Node (e : elem) (children : list node).

Definition isTag (t : string) (e : elem) : bool := String.eqb (tagName e) t.

(** All elements in document order, each with whether it has a [picture]
    ancestor. *)
Fixpoint walk (inPicture : bool) (n : node) : list (elem * bool) :=
  match n with
  | Node e children =>
      (e, inPicture)
        :: flat_map (walk (inPicture || isTag "PICTURE" e)) children
  end.

(** [document.querySelectorAll('img')] *)
Definition select_img (doc : node) : list elem :=
  map fst (List.filter (fun p => isTag "IMG" (fst p)) (walk false doc)).

(** [document.querySelectorAll('*')] *)
Definition select_all (doc : node) : list elem := map fst (walk false doc).

(** [document.querySelectorAll('picture source, picture img, [srcset]')] *)
Definition select_picture (doc : node) : list elem :=
  map fst
    (List.filter
       (fun p => (snd p && isTag "SOURCE" (fst p))
                 || (snd p && isTag "IMG" (fst p))
                 || hasSrcsetAttr (fst p))
       (walk false doc)).

(** [document.querySelectorAll(lazySelectors)] *)
Definition select_lazy (doc : node) : list elem :=
  map fst
    (List.filter
       (fun p => isSome (data_src (fst p)) || isSome (data_lazy_src (fst p))
                 || isSome (data_original (fst p))
                 || isSome (data_image (fst p)) || isSome (data_bg (fst p)))
       (walk false doc)).

End Dom.

(** ** The extraction script *)

(** An entry of the [images] array. [element] is set by Method 2 only. *)
Record image := {
  src : string;
  alt : string;
  type : string;
  element : option string;
  width : Z;
  height : Z
}.

Definition orS (a b : string) : string :=
  match a with EmptyString => b | _ => a end.

Definition nonEmpty (s : string) : bool :=
  match s with EmptyString => false | _ => true end.

(** Method 1: Standard img tags *)
Definition method1 (doc : Dom.node) : list image :=
  Js.forEach (Dom.select_img doc) (fun img index =>
    match Dom.src img with
    | Some s =>
        if nonEmpty s && Js.startsWith s "http"
        then [ {| src := s;
                  alt := orS (Dom.alt img) (Js.withIndex "image-" index);
                  type := "img-tag";
                  element := None;
                  width := Js.orZ (Dom.naturalWidth img) (Js.orZ (Dom.width img) 0);
                  height := Js.orZ (Dom.naturalHeight img) (Js.orZ (Dom.height img) 0)
               |} ]
        else []
    | None => []
    end).

(** Method 2: Background images *)
Definition method2 (doc : Dom.node) : list image :=
  Js.forEach (Dom.select_all doc) (fun element index =>
    let bgImage := Dom.backgroundImage element in
    if nonEmpty bgImage && negb (String.eqb bgImage "none")
       && Js.includes bgImage "url("
    then match UrlRegex.urlMatch bgImage with
         | Some u =>
             if nonEmpty u && Js.startsWith u "http"
             then [ {| src := u;
                       alt := Js.withIndex "background-" index;
                       type := "background-image";
                       element := Some (Dom.tagName element);
                       width := 0;
                       height := 0 |} ]
             else []
         | None => []
         end
    else []).

(** Method 3: Picture elements and srcset *)
Definition method3 (doc : Dom.node) : list image :=
  Js.forEach (Dom.select_picture doc) (fun element index =>
    match Js.or (Dom.srcset element) (Dom.src element) with
    | Some srcset =>
        if nonEmpty srcset && Js.includes srcset "http"
        then
          let urls :=
            map (fun s => Js.first (Js.split (Js.trim s) " "%char))
                (Js.split srcset ","%char) in
          let httpUrls := List.filter (fun url => Js.startsWith url "http") urls in
          if (0 <? Z.of_nat (List.length httpUrls))
          then [ {| src := nth (List.length httpUrls - 1)%nat httpUrls "";
                    alt := Js.withIndex "picture-" index;
                    type := "picture-element";
                    element := None;
                    width := 0;
                    height := 0 |} ]
          else []
        else []
    | None => []
    end).

(** Method 4: Data attributes (lazy loading) *)
Definition method4 (doc : Dom.node) : list image :=
  Js.forEach (Dom.select_lazy doc) (fun element index =>
    let src' :=
      Js.or (Dom.data_src element)
        (Js.or (Dom.data_lazy_src element)
           (Js.or (Dom.data_original element)
              (Js.or (Dom.data_image element) (Dom.data_bg element)))) in
    match src' with
    | Some s =>
        if nonEmpty s && Js.startsWith s "http"
        then [ {| src := s;
                  alt := Js.withIndex "lazy-" index;
                  type := "lazy-loading";
                  element := None;
                  width := 0;
                  height := 0 |} ]
        else []
    | None => []
    end).

(** Remove duplicates and filter out tiny images *)
Definition isDuplicate (img : image) (index : nat) (self : list image) : bool :=
  negb (Z.of_nat index =? Js.findIndex (fun i => String.eqb (src i) (src img)) self).

Definition isTooSmall (img : image) : bool :=
  ((0 <? width img) && (0 <? height img))
  && ((width img <? 50) || (height img <? 50)).

Definition uniqueImages (images : list image) : list image :=
  Js.filter (fun img index self =>
               negb (isDuplicate img index self) && negb (isTooSmall img))
            images.

(** The four detection methods, and the order the script runs them in. *)
Inductive method := ImgTags | BackgroundImages | PictureSrcset | LazyData.

Definition detect (m : method) (doc : Dom.node) : list image :=
  match m with
  | ImgTags => method1 doc
  | BackgroundImages => method2 doc
  | PictureSrcset => method3 doc
  | LazyData => method4 doc
  end.

Definition scriptOrder : list method :=
  [ImgTags; BackgroundImages; PictureSrcset; LazyData].

(** The [images] array after the methods of [order] have run in turn. *)
Definition candidates (order : list method) (doc : Dom.node) : list image :=
  flat_map (fun m => detect m doc) order.

(** The script with its methods run in the given order. *)
Definition extractWith (order : list method) (doc : Dom.node) : list image :=
  uniqueImages (candidates order doc).

(** The callback of [page.evaluate] at lines 63-151. *)
Definition extractImages (doc : Dom.node) : list image :=
  uniqueImages (method1 doc ++ method2 doc ++ method3 doc ++ method4 doc).

(** ** The server *)

(** JSON values, for request and response bodies. Numbers are the integers;
    the handlers only test a number against zero. *)
Inductive json :=
| JNull
| JBool (b : bool)
| JNum (z : Z)
| JStr (s : string)
| JArr (items : list json)
| JObj (fields : list (string * json)).

(** [obj.k] on a parsed JSON object: the last binding of a repeated key is
    the one [JSON.parse] keeps; [None] is [undefined]. *)
Definition getProp (k : string) (fields : list (string * json)) : option json :=
  fold_left (fun acc kv => if String.eqb (fst kv) k then Some (snd kv) else acc)
            fields None.

(** Truthiness of a value read from a parsed body. *)
Definition truthy (v : option json) : bool :=
  match v with
  | None => false
  | Some JNull => false
  | Some (JBool b) => b
  | Some (JNum z) => negb (z =? 0)
  | Some (JStr s) => nonEmpty s
  | Some (JArr _) => true
  | Some (JObj _) => true
  end.

(** What [res.json] sends for an entry of [images]. *)
Definition image_to_json (img : image) : json :=
  JObj ([("src", JStr (src img)); ("alt", JStr (alt img));
         ("type", JStr (type img))]
        ++ match element img with
           | Some t => [("element", JStr t)]
           | None => []
           end
        ++ [("width", JNum (width img)); ("height", JNum (height img))]).

Inductive response :=
| Resp (status : Z) (body : json)
| SendFile (path : string).

(** Calls made on the browser-automation library, as they are awaited. *)
Inductive call :=
| Launch (headless : bool) (args : list string)
| NewPage
| SetUserAgent (ua : string)
| Goto (url : option json) (waitUntil : string) (timeout : Z)
| WaitForTimeout (ms : Z)
| EvalInnerHeight
| ScrollTo (x y : Z)
| EvalExtract
| ClosePage.

(** The browser handle stored in the module variable [browser]. *)
Inductive handle := Browser.

(** What the browser does during one request: [rejects n] is the message of
    the error with which the [n]-th awaited call of the request rejects, if it
    does; [innerHeight] is [window.innerHeight]; [document] is the page when
    the extraction script runs. *)
Record env := {
  rejects : nat -> option string;
  innerHeight : Z;
  document : Dom.node
}.

(** State threaded through a handler: the module variable [browser] and the
    calls awaited so far, oldest first. *)
Record rstate := {
  browser : option handle;
  log : list call
}.

Inductive result (A : Type) :=
| Ok (a : A)
| Throw (message : string).
Arguments Ok {A} a.
Arguments Throw {A} message.

(** Handler code: reads the environment, threads the state, may throw. *)
Definition M (A : Type) : Type := env -> rstate -> result A * rstate.

Definition ret {A} (a : A) : M A := fun _ s => (Ok a, s).

Definition bind {A B} (m : M A) (k : A -> M B) : M B :=
  fun e s =>
    match m e s with
    | (Ok a, s') => k a e s'
    | (Throw msg, s') => (Throw msg, s')
    end.

Notation "x <- m ;; k" := (bind m (fun x => k))
  (at level 61, m at next level, right associativity).
Notation "m ;;; k" := (bind m (fun _ => k))
  (at level 61, right associativity).

(** [await] of a library call: it is recorded, then resolves or rejects as
    the environment says. *)
Definition await (c : call) : M unit :=
  fun e s =>
    let s' := {| browser := browser s; log := log s ++ [c] |} in
    match rejects e (List.length (log s)) with
    | Some msg => (Throw msg, s')
    | None => (Ok tt, s')
    end.

Definition getBrowser : M (option handle) := fun _ s => (Ok (browser s), s).

Definition setBrowser (b : handle) : M unit :=
  fun _ s => (Ok tt, {| browser := Some b; log := log s |}).

Definition ask {A} (f : env -> A) : M A := fun e s => (Ok (f e), s).

(** The [args] of [puppeteer.launch]. *)
Definition launchArgs : list string :=
  ["--no-sandbox"; "--disable-setuid-sandbox";
   "--disable-dev-shm-usage"; "--disable-web-security"].

(** Initialize browser *)
Definition initBrowser : M handle :=
  b <- getBrowser ;;
  match b with
  | Some h => ret h
  | None =>
      await (Launch true launchArgs) ;;;
      setBrowser Browser ;;;
      ret Browser
  end.

(** [for (let i = start; ...; i++) body(i)], [count] iterations. *)
Fixpoint forLoop (count : nat) (i : Z) (body : Z -> M unit) : M unit :=
  match count with
  | O => ret tt
  | S k => body i ;;; forLoop k (i + 1) body
  end.

(** Helper function for scrolling *)
Definition scrollSteps : Z := 5.

Definition scrollPageToLoadImages : M unit :=
  await EvalInnerHeight ;;;
  viewportHeight <- ask innerHeight ;;
  forLoop (Z.to_nat scrollSteps) 0 (fun step =>
    await (ScrollTo 0 (step * viewportHeight)) ;;;
    await (WaitForTimeout 1000)) ;;;
  await (ScrollTo 0 0) ;;;
  await (WaitForTimeout 1000).

Definition userAgent : string :=
  "Mozilla/5.0 (Windows NT 10.0; Win64; x64) AppleWebKit/537.36 (KHTML, like Gecko) Chrome/91.0.4472.124 Safari/537.36".

(** Conversion to a string, as the template literal of the log line does
    it to [url], returns. A parsed object has the inherited [toString]
    unless the body gave it a key of that name, whose value cannot be called;
    [valueOf] then returns the object itself, and the conversion throws. An
    array converts its elements ([null] apart) and joins them. *)
Fixpoint printable (j : json) : bool :=
  match j with
  | JArr items => forallb printable items
  | JObj fields => negb (isSome (getProp "toString" fields))
  | _ => true
  end.

Definition printableUrl (url : option json) : bool :=
  match url with
  | Some j => printable j
  | None => true
  end.

(** The message of the TypeError the engine throws when the conversion
    fails. *)
Definition typeErrorMessage : string :=
  "Cannot convert object to primitive value".

(** The log line at the head of the [try] block: nothing but the
    conversion of [url] is modelled of it. *)
Definition logUrl (url : option json) : M unit :=
  fun _ s =>
    if printableUrl url then (Ok tt, s) else (Throw typeErrorMessage, s).

(** The body of the [try] block of the extraction handler. *)
Definition tryExtract (url : option json) : M response :=
  logUrl url ;;;
  initBrowser ;;;
  await NewPage ;;;
  await (SetUserAgent userAgent) ;;;
  await (Goto url "networkidle2" 30000) ;;;
  await (WaitForTimeout 3000) ;;;
  scrollPageToLoadImages ;;;
  await EvalExtract ;;;
  imageData <- ask (fun e => extractImages (document e)) ;;
  await ClosePage ;;;
  ret (Resp 200 (JObj [("success", JBool true);
                       ("images", JArr (map image_to_json imageData));
                       ("count", JNum (Z.of_nat (List.length imageData)));
                       ("url", match url with Some u => u | None => JNull end)])).

(** Extract images endpoint *)
Definition postExtractImages (body : list (string * json)) (e : env)
           (s : rstate) : response * rstate :=
  let url := getProp "url" body in
  if negb (truthy url)
  then (Resp 400 (JObj [("error", JStr "URL is required")]), s)
  else
    match tryExtract url e s with
    | (Ok r, s') => (r, s')
    | (Throw message, s') =>
        (Resp 500 (JObj [("error", JStr "Failed to extract images");
                         ("message", JStr message)]), s')
    end.

(** Health check endpoint *)
Definition getHealth (s : rstate) : response :=
  Resp 200 (JObj [("status", JStr "OK");
                  ("browser", JBool (isSome (browser s)))]).

(** Serve the main HTML page; the path is relative to [__dirname]. *)
Definition getRoot : response := SendFile "public/index.html".

Inductive request :=
| PostExtractImages (body : list (string * json))
| GetHealth
| GetRoot.

(** One request served to completion against the environment [e]. *)
Definition serve (req : request) (e : env) (s : rstate) : response * rstate :=
  match req with
  | PostExtractImages body => postExtractImages body e s
  | GetHealth => (getHealth s, s)
  | GetRoot => (getRoot, s)
  end.

(** The process starts with [browser = null]. *)
Definition initial : rstate := {| browser := None; log := [] |}.

(** The state a request starts in: the module variable as the previous
    request left it, and an empty record of calls. *)
Definition fresh (s : rstate) : rstate := {| browser := browser s; log := [] |}.

(** ** The calls a handler makes, as data *)

(** [s] after the calls [cs] have been awaited. *)
Definition logged (s : rstate) (cs : list call) : rstate :=
  {| browser := browser s; log := log s ++ cs |}.

(** The calls of [cs] awaited in turn. *)
Fixpoint awaitAll (cs : list call) : M unit :=
  match cs with
  | [] => ret tt
  | c :: t => await c ;;; awaitAll t
  end.

(** The calls of the scroll helper for a viewport of height [vh]. *)
Definition scrollCalls (vh : Z) : list call :=
  [EvalInnerHeight;
   ScrollTo 0 (0 * vh); WaitForTimeout 1000;
   ScrollTo 0 (1 * vh); WaitForTimeout 1000;
   ScrollTo 0 (2 * vh); WaitForTimeout 1000;
   ScrollTo 0 (3 * vh); WaitForTimeout 1000;
   ScrollTo 0 (4 * vh); WaitForTimeout 1000;
   ScrollTo 0 0; WaitForTimeout 1000].

(** The calls of the [try] block once the browser handle is there. *)
Definition pageCalls (url : option json) (vh : Z) : list call :=
  [NewPage; SetUserAgent userAgent; Goto url "networkidle2" 30000;
   WaitForTimeout 3000]
  ++ scrollCalls vh ++ [EvalExtract; ClosePage].

(** The calls of the [try] block, given the module variable [browser] when
    the request starts. *)
Definition handlerCalls (b : option handle) (url : option json) (vh : Z)
  : list call :=
  match b with
  | None => Launch true launchArgs :: pageCalls url vh
  | Some _ => pageCalls url vh
  end.

(** The 200 response for the images [imgs] found at [url]. *)
Definition okResponse (url : option json) (imgs : list image) : response :=
  Resp 200 (JObj [("success", JBool true);
                  ("images", JArr (map image_to_json imgs));
                  ("count", JNum (Z.of_nat (List.length imgs)));
                  ("url", match url with Some u => u | None => JNull end)]).

(** ** Sample runs *)

Module Run.

(** Every call resolves. *)
Definition smooth (doc : Dom.node) : env :=
  {| rejects := fun _ => None; innerHeight := 800; document := doc |}.

(** The [n]-th call rejects with [msg], the others resolve. *)
Definition failing (n : nat) (msg : string) (doc : Dom.node) : env :=
  {| rejects := fun k => if Nat.eqb k n then Some msg else None;
     innerHeight := 800; document := doc |}.

Definition urlBody (u : string) : list (string * json) := [("url", JStr u)].

End Run.
(** ** [uniqueImages] as a single pass that remembers what came before *)

Definition sameSrc (s : string) (i : image) : bool := String.eqb (src i) s.

(** [keep pre l]: the entries of [l] kept by the filter when the entries of
    [pre] precede them in the array. *)
Fixpoint keep (pre l : list image) : list image :=
  match l with
  | [] => []
  | x :: t =>
      if negb (existsb (sameSrc (src x)) pre) && negb (isTooSmall x)
      then x :: keep (pre ++ [x]) t
      else keep (pre ++ [x]) t
  end.


(** ** Sample documents *)

Module Sample.

(** An element with no source, no background image and no data attribute. *)
Definition plain (tag : string) : Dom.elem :=
  {| Dom.tagName := tag; Dom.src := None; Dom.alt := "";
     Dom.naturalWidth := 0; Dom.width := 0;
     Dom.naturalHeight := 0; Dom.height := 0;
     Dom.backgroundImage := "none";
     Dom.hasSrcsetAttr := false; Dom.srcset := None;
     Dom.data_src := None; Dom.data_lazy_src := None;
     Dom.data_original := None; Dom.data_image := None;
     Dom.data_bg := None |}.

(** A loaded [img] of natural size [w] x [h], with an optional [data-src]. *)
Definition img (s a : string) (w h : Z) (lazy : option string) : Dom.elem :=
  {| Dom.tagName := "IMG"; Dom.src := Some s; Dom.alt := a;
     Dom.naturalWidth := w; Dom.width := w;
     Dom.naturalHeight := h; Dom.height := h;
     Dom.backgroundImage := "none";
     Dom.hasSrcsetAttr := false; Dom.srcset := Some "";
     Dom.data_src := lazy; Dom.data_lazy_src := None;
     Dom.data_original := None; Dom.data_image := None;
     Dom.data_bg := None |}.

(** A [div] with a computed background image and an optional [data-src]. *)
Definition div (bg : string) (lazy : option string) : Dom.elem :=
  {| Dom.tagName := "DIV"; Dom.src := None; Dom.alt := "";
     Dom.naturalWidth := 0; Dom.width := 0;
     Dom.naturalHeight := 0; Dom.height := 0;
     Dom.backgroundImage := bg;
     Dom.hasSrcsetAttr := false; Dom.srcset := None;
     Dom.data_src := lazy; Dom.data_lazy_src := None;
     Dom.data_original := None; Dom.data_image := None;
     Dom.data_bg := None |}.

(** The computed value of a background image: the URL between double
    quotes. *)
Definition cssUrl (u : string) : string :=
  "url(" ++ String "034" (u ++ String "034" ")").

Definition page (content : list Dom.node) : Dom.node :=
  Dom.Node (plain "HTML")
    [Dom.Node (plain "HEAD") []; Dom.Node (plain "BODY") content].

(** A 10 x 10 image. *)
Definition dotPage : Dom.node :=
  page [Dom.Node (img "http://example.com/dot.png" "" 10 10 None) []].

(** An unloaded image with a [width] attribute of 10 and no height. *)
Definition halfKnownPage : Dom.node :=
  page [Dom.Node
          {| Dom.tagName := "IMG"; Dom.src := Some "http://example.com/bar.png";
             Dom.alt := ""; Dom.naturalWidth := 0; Dom.width := 10;
             Dom.naturalHeight := 0; Dom.height := 0;
             Dom.backgroundImage := "none";
             Dom.hasSrcsetAttr := false; Dom.srcset := Some "";
             Dom.data_src := None; Dom.data_lazy_src := None;
             Dom.data_original := None; Dom.data_image := None;
             Dom.data_bg := None |} []].

(** A 16 x 16 icon inside a box that has the same file as background. *)
Definition iconPage : Dom.node :=
  page [Dom.Node (div (cssUrl "http://example.com/icon.png") None)
          [Dom.Node (img "http://example.com/icon.png" "" 16 16 None) []]].

(** A 200 x 100 image whose [data-src] repeats its source. *)
Definition logoPage : Dom.node :=
  page [Dom.Node (img "http://example.com/a.jpg" "logo" 200 100
                      (Some "http://example.com/a.jpg")) []].

(** A box whose [data-src] is a relative path that begins with http. *)
Definition relativePage : Dom.node :=
  page [Dom.Node (div "none" (Some "httpdocs/banner.png")) []].

Definition lazyFirst : list method :=
  [LazyData; ImgTags; BackgroundImages; PictureSrcset].

End Sample.

(** The spec's notion of an absolute HTTP(S) URL, as far as the scheme goes:
    the string begins with the scheme and the two slashes. *)
Definition spec_absoluteHttpUrl (s : string) : bool :=
  Js.startsWith s "http://" || Js.startsWith s "https://".

(** ** Further definitions used by the properties below *)

(** A character the lazy group of the Method 2 pattern can hold: not a
    closing parenthesis and not a line terminator. *)
Definition groupChar (c : ascii) : bool :=
  negb (Ascii.eqb c ")"%char) && negb (UrlRegex.isLineTerminator c).

(** [s] contains the substring http, for a property that may be
    [undefined]. *)
Definition hasHttp (v : option string) : bool :=
  match v with
  | Some s => Js.includes s "http"
  | None => false
  end.

(** One of the values the four methods read on [e] contains http. *)
Definition mentionsHttp (e : Dom.elem) : bool :=
  hasHttp (Dom.src e) || hasHttp (Dom.srcset e)
  || Js.includes (Dom.backgroundImage e) "http"
  || hasHttp (Dom.data_src e) || hasHttp (Dom.data_lazy_src e)
  || hasHttp (Dom.data_original e) || hasHttp (Dom.data_image e)
  || hasHttp (Dom.data_bg e).

(** The calls awaited while one request is served, the module variable
    being as [s] has it. *)
Definition callsOf (req : request) (e : env) (s : rstate) : list call :=
  log (snd (serve req e (fresh s))).

(** The calls of the [try] block before the extraction script. *)
Definition callsBeforeExtract (b : option handle) (url : option json) (vh : Z)
  : list call :=
  match b with
  | None => [Launch true launchArgs]
  | Some _ => []
  end
  ++ [NewPage; SetUserAgent userAgent; Goto url "networkidle2" 30000;
      WaitForTimeout 3000]
  ++ scrollCalls vh.

(** Graceful shutdown: what the SIGINT handler calls. [closeRejects] says
    whether the awaited [browser.close()] rejects, in which case the handler
    stops there. *)
Inductive exitCall :=
| BrowserClose
| ProcessExit (code : Z).

Definition onSigint (closeRejects : bool) (s : rstate) : list exitCall :=
  match browser s with
  | Some _ =>
      BrowserClose :: (if closeRejects then [] else [ProcessExit 0])
  | None => [ProcessExit 0]
  end.

(** A page with a [picture] element: one [source] with two candidates and
    the fallback [img]. *)
Definition picturePage : Dom.node :=
  Sample.page
    [Dom.Node (Sample.plain "PICTURE")
       [Dom.Node
          {| Dom.tagName := "SOURCE"; Dom.src := Some ""; Dom.alt := "";
             Dom.naturalWidth := 0; Dom.width := 0;
             Dom.naturalHeight := 0; Dom.height := 0;
             Dom.backgroundImage := "none";
             Dom.hasSrcsetAttr := true;
             Dom.srcset :=
               Some "http://example.com/a.webp 1x, http://example.com/b.webp 2x";
             Dom.data_src := None; Dom.data_lazy_src := None;
             Dom.data_original := None; Dom.data_image := None;
             Dom.data_bg := None |} [];
        Dom.Node (Sample.img "http://example.com/a.jpg" "photo" 640 480 None) []]].

(** ** Requests in flight

    A handler runs until it awaits a call; other handlers run before the
    call settles. A request in flight is the list of calls of its [try]
    block, fixed when [initBrowser] tested the module variable, and the
    number of them that have resolved; the call after those is pending. *)

Record task := {
  t_url : option json;
  t_env : env;
  t_calls : list call;
  t_done : nat
}.

(** The module variable [browser] and the requests in flight, oldest
    first. *)
Record sstate := {
  s_browser : option handle;
  s_tasks : list task
}.

(** The process starts with [browser = null] and no request. *)
Definition booted : sstate := {| s_browser := None; s_tasks := [] |}.

(** The state a handler sees when it starts. *)
Definition seenBy (st : sstate) : rstate :=
  {| browser := s_browser st; log := [] |}.

Definition removeAt {A} (i : nat) (l : list A) : list A :=
  firstn i l ++ skipn (S i) l.

Definition replaceAt {A} (i : nat) (x : A) (l : list A) : list A :=
  firstn i l ++ x :: skipn (S i) l.

(** A request arrives: its handler runs up to its first [await]. The
    extraction handler answers at once for a falsy [url] and for a [url] the
    log line cannot convert; otherwise it has tested [browser], made its
    first call (the launch, or newPage) and waits. The other two handlers
    answer at once. *)
Definition arrive (req : request) (e : env) (st : sstate)
  : sstate * list response :=
  match req with
  | PostExtractImages body =>
      let url := getProp "url" body in
      if negb (truthy url)
      then (st, [Resp 400 (JObj [("error", JStr "URL is required")])])
      else if negb (printableUrl url)
      then (st, [Resp 500 (JObj [("error", JStr "Failed to extract images");
                                 ("message", JStr typeErrorMessage)])])
      else ({| s_browser := s_browser st;
               s_tasks := s_tasks st ++
                          [ {| t_url := url; t_env := e;
                               t_calls := handlerCalls (s_browser st) url
                                                       (innerHeight e);
                               t_done := 0 |} ] |}, [])
  | GetHealth => (st, [getHealth (seenBy st)])
  | GetRoot => (st, [getRoot])
  end.

(** The pending call of the [i]-th request in flight settles. A rejection
    is caught and answered 500. A resolved launch is assigned to [browser].
    After its last call the request is answered 200; otherwise its next
    call is made and it waits again. *)
Definition settle (i : nat) (st : sstate) : sstate * list response :=
  match nth_error (s_tasks st) i with
  | None => (st, [])
  | Some t =>
      match rejects (t_env t) (t_done t) with
      | Some msg =>
          ({| s_browser := s_browser st;
              s_tasks := removeAt i (s_tasks st) |},
           [Resp 500 (JObj [("error", JStr "Failed to extract images");
                            ("message", JStr msg)])])
      | None =>
          let b := match nth_error (t_calls t) (t_done t) with
                   | Some (Launch _ _) => Some Browser
                   | _ => s_browser st
                   end in
          if (S (t_done t) <? List.length (t_calls t))%nat
          then ({| s_browser := b;
                   s_tasks := replaceAt i {| t_url := t_url t;
                                             t_env := t_env t;
                                             t_calls := t_calls t;
                                             t_done := S (t_done t) |}
                                        (s_tasks st) |}, [])
          else ({| s_browser := b; s_tasks := removeAt i (s_tasks st) |},
                [okResponse (t_url t) (extractImages (document (t_env t)))])
      end
  end.

Inductive event :=
| Arrive (req : request) (e : env)
| Settle (i : nat).

Definition step (st : sstate) (ev : event) : sstate * list response :=
  match ev with
  | Arrive req e => arrive req e st
  | Settle i => settle i st
  end.

(** The events of [evs] in turn: the state reached and the responses sent,
    in order. *)
Fixpoint exec (st : sstate) (evs : list event) : sstate * list response :=
  match evs with
  | [] => (st, [])
  | ev :: rest =>
      let (st1, r1) := step st ev in
      let (st2, r2) := exec st1 rest in
      (st2, (r1 ++ r2)%list)
  end.

(** The event is the settling of a pending launch, which resolves. *)
Definition resolvesLaunch (st : sstate) (ev : event) : bool :=
  match ev with
  | Settle i =>
      match nth_error (s_tasks st) i with
      | Some t =>
          match rejects (t_env t) (t_done t),
                nth_error (t_calls t) (t_done t) with
          | None, Some (Launch _ _) => true
          | _, _ => false
          end
      | None => false
      end
  | Arrive _ _ => false
  end.

(** A launch resolves somewhere along [evs]. *)
Fixpoint launchResolved (st : sstate) (evs : list event) : bool :=
  match evs with
  | [] => false
  | ev :: rest => resolvesLaunch st ev || launchResolved (fst (step st ev)) rest
  end.

Definition isLaunch (c : call) : bool :=
  match c with Launch _ _ => true | _ => false end.

(** [browser] after the calls [cs] have resolved. *)
Definition afterCalls (b : option handle) (cs : list call) : option handle :=
  if existsb isLaunch cs then Some Browser else b.

(** * The script on small inputs *)

Example urlMatch_quoted :
  UrlRegex.urlMatch (Sample.cssUrl "http://example.com/bg.png")
  = Some "http://example.com/bg.png".
Proof. reflexivity. Qed.

Example urlMatch_second_layer :
  UrlRegex.urlMatch "linear-gradient(red, blue), url('http://example.com/x.png')"
  = Some "http://example.com/x.png".
Proof. reflexivity. Qed.

Example urlMatch_unclosed : UrlRegex.urlMatch "url('http://example.com" = None.
Proof. reflexivity. Qed.

Example srcset_parts :
  map (fun s => Js.first (Js.split (Js.trim s) " "%char))
      (Js.split "http://example.com/a.png 1x, http://example.com/b.png 2x" ","%char)
  = ["http://example.com/a.png"; "http://example.com/b.png"].
Proof. reflexivity. Qed.

Example findIndex_first : Js.findIndex (Z.eqb 3) [1; 3; 2; 3] = 1.
Proof. reflexivity. Qed.

Example findIndex_absent : Js.findIndex (Z.eqb 5) [1; 3; 2; 3] = -1.
Proof. reflexivity. Qed.

Example icon_candidates :
  map (fun c => (type c, alt c, width c)) (candidates scriptOrder Sample.iconPage)
  = [("img-tag", "image-0", 16); ("background-image", "background-3", 0)].
Proof. reflexivity. Qed.

(** * Properties of the extraction script *)

Section FindIndex.
Context {A : Type} (p : A -> bool).

Lemma findIndex_lower (l : list A) : -1 <= Js.findIndex p l.
Proof.
  induction l as [|x t IH]; simpl; [lia|].
  destruct (p x); [lia|].
  destruct (Z.eqb_spec (Js.findIndex p t) (-1)); lia.
Qed.

Lemma findIndex_hit (pre l : list A) :
  existsb p pre = true ->
  Js.findIndex p (pre ++ l) < Z.of_nat (List.length pre).
Proof.
  induction pre as [|y pre IH]; simpl; [discriminate|].
  destruct (p y); simpl; [lia|].
  intros H. specialize (IH H).
  destruct (Z.eqb_spec (Js.findIndex p (pre ++ l)) (-1)); lia.
Qed.

Lemma findIndex_miss (pre : list A) (x : A) (t : list A) :
  existsb p pre = false -> p x = true ->
  Js.findIndex p (pre ++ x :: t) = Z.of_nat (List.length pre).
Proof.
  induction pre as [|y pre IH]; simpl; intros Hpre Hx.
  - now rewrite Hx.
  - apply orb_false_elim in Hpre as [Hy Hpre]. rewrite Hy.
    rewrite (IH Hpre Hx).
    destruct (Z.eqb_spec (Z.of_nat (List.length pre)) (-1)); lia.
Qed.

(** The element at index [length pre] is where [findIndex] stops exactly
    when nothing before it satisfies [p]. *)
Lemma findIndex_here (pre : list A) (x : A) (t : list A) :
  p x = true ->
  (Z.of_nat (List.length pre) =? Js.findIndex p (pre ++ x :: t))
  = negb (existsb p pre).
Proof.
  intros Hx. destruct (existsb p pre) eqn:E; simpl.
  - apply Z.eqb_neq. pose proof (findIndex_hit pre (x :: t) E). lia.
  - apply Z.eqb_eq. now rewrite findIndex_miss.
Qed.
End FindIndex.

Lemma forEach_from_In {A B} (f : A -> nat -> list B) (l : list A) (i : nat) (b : B) :
  In b (Js.forEach_from f i l) -> exists a k, In a l /\ In b (f a k).
Proof.
  revert i; induction l as [|x t IH]; simpl; intros i H; [contradiction|].
  apply in_app_or in H as [H|H].
  - exists x, i; auto.
  - destruct (IH _ H) as (a & k & Ha & Hb). exists a, k; auto.
Qed.

Lemma filter_from_In {A} (f : A -> nat -> list A -> bool) self (l : list A) i x :
  In x (Js.filter_from f self i l) ->
  In x l /\ exists k, f x k self = true.
Proof.
  revert i; induction l as [|y t IH]; simpl; intros i H; [contradiction|].
  destruct (f y i self) eqn:E.
  - destruct H as [->|H].
    + split; [now left | now exists i].
    + destruct (IH _ H); auto.
  - destruct (IH _ H); auto.
Qed.

(** ** [uniqueImages] as a single pass *)

Lemma uniqueImages_from (pre l : list image) :
  Js.filter_from
    (fun img index self =>
       negb (isDuplicate img index self) && negb (isTooSmall img))
    (pre ++ l) (List.length pre) l
  = keep pre l.
Proof.
  revert pre; induction l as [|x t IH]; intros pre; simpl; [reflexivity|].
  unfold isDuplicate at 1.
  change (fun i : image => String.eqb (src i) (src x)) with (sameSrc (src x)).
  rewrite findIndex_here by (unfold sameSrc; apply String.eqb_refl).
  rewrite negb_involutive.
  specialize (IH (pre ++ [x])%list).
  rewrite <- app_assoc, length_app, Nat.add_1_r in IH. simpl in IH.
  rewrite IH. reflexivity.
Qed.

Lemma uniqueImages_keep (l : list image) : uniqueImages l = keep [] l.
Proof. exact (uniqueImages_from [] l). Qed.

Lemma existsb_snoc {A} (p : A -> bool) l x :
  existsb p (l ++ [x]) = existsb p l || p x.
Proof. rewrite existsb_app. simpl. now rewrite orb_false_r. Qed.

(** How many kept entries carry the source [s]: none if [s] occurred before,
    otherwise one or none as the first candidate with that source passes the
    size test or not. *)
Lemma keep_count (s : string) (l pre : list image) :
  count_occ string_dec (map src (keep pre l)) s
  = if existsb (sameSrc s) pre then 0%nat
    else match find (sameSrc s) l with
         | Some c => if isTooSmall c then 0%nat else 1%nat
         | None => 0%nat
         end.
Proof.
  revert pre; induction l as [|x t IH]; intros pre.
  - simpl. now destruct (existsb _ pre).
  - cbn [keep find].
    pose proof (String.eqb_eq (src x) s) as Hx.
    change (String.eqb (src x) s) with (sameSrc s x) in Hx.
    destruct (string_dec (src x) s) as [E|E].
    + subst s.
      assert (Hs : sameSrc (src x) x = true) by now apply Hx.
      rewrite Hs.
      destruct (existsb (sameSrc (src x)) pre) eqn:Epre; simpl.
      * rewrite IH, existsb_snoc, Epre. reflexivity.
      * destruct (isTooSmall x); simpl.
        -- rewrite IH, existsb_snoc, Hs, orb_true_r. reflexivity.
        -- destruct (string_dec (src x) (src x)); [|congruence].
           rewrite IH, existsb_snoc, Hs, orb_true_r. reflexivity.
    + assert (Hs : sameSrc s x = false).
      { destruct (sameSrc s x) eqn:F; [|reflexivity].
        exfalso. apply E, Hx. reflexivity. }
      rewrite Hs.
      assert (Ht : count_occ string_dec (map src (keep (pre ++ [x]) t)) s
                   = if existsb (sameSrc s) pre then 0%nat
                     else match find (sameSrc s) t with
                          | Some c => if isTooSmall c then 0%nat else 1%nat
                          | None => 0%nat
                          end).
      { rewrite IH, existsb_snoc, Hs, orb_false_r. reflexivity. }
      destruct (negb (existsb (sameSrc (src x)) pre) && negb (isTooSmall x));
        [|exact Ht].
      simpl. destruct (string_dec (src x) s); [congruence|exact Ht].
Qed.

Lemma uniqueImages_count (s : string) (l : list image) :
  count_occ string_dec (map src (uniqueImages l)) s
  = match find (sameSrc s) l with
    | Some c => if isTooSmall c then 0%nat else 1%nat
    | None => 0%nat
    end.
Proof. rewrite uniqueImages_keep. exact (keep_count s l []). Qed.

Lemma uniqueImages_In (l : list image) (x : image) :
  In x (uniqueImages l) -> In x l /\ isTooSmall x = false.
Proof.
  intros H. apply filter_from_In in H as [Hin [k Hk]].
  split; [exact Hin|].
  apply andb_true_iff in Hk as [_ Hk]. now apply negb_true_iff in Hk.
Qed.

Lemma uniqueImages_NoDup (l : list image) : NoDup (map src (uniqueImages l)).
Proof.
  apply (NoDup_count_occ string_dec). intros s.
  rewrite uniqueImages_count.
  destruct (find (sameSrc s) l) as [c|]; [destruct (isTooSmall c)|]; lia.
Qed.

Lemma extractImages_scriptOrder (doc : Dom.node) :
  extractImages doc = extractWith scriptOrder doc.
Proof.
  unfold extractImages, extractWith, candidates, scriptOrder. simpl.
  now rewrite app_nil_r.
Qed.

(** ** Minimum size (C1) *)

Lemma isTooSmall_iff (c : image) :
  isTooSmall c = true
  <-> 0 < width c /\ 0 < height c /\ (width c < 50 \/ height c < 50).
Proof.
  unfold isTooSmall.
  rewrite !andb_true_iff, orb_true_iff, !Z.ltb_lt. tauto.
Qed.

(** C1. An entry whose width and height are both known (positive) and of
    which one is under 50 pixels is not in the array the script returns. *)
Theorem C1_small_known_size_excluded (doc : Dom.node) (c : image) :
  0 < width c -> 0 < height c -> (width c < 50 \/ height c < 50) ->
  ~ In c (extractImages doc).
Proof.
  intros Hw Hh Hsmall Hin.
  apply uniqueImages_In in Hin as [_ Hok].
  assert (isTooSmall c = true) by (apply isTooSmall_iff; auto).
  congruence.
Qed.

Lemma C1_small_known_size_excluded_witness :
  let c := {| src := "http://example.com/dot.png"; alt := "image-0";
              type := "img-tag"; element := None;
              width := 10; height := 10 |} in
  In c (candidates scriptOrder Sample.dotPage)
  /\ ~ In c (extractImages Sample.dotPage).
Proof.
  split.
  - left. reflexivity.
  - apply C1_small_known_size_excluded; simpl; lia.
Defined.

(** The size test needs both dimensions: a candidate of width 10 whose
    height is unknown (0) is returned. *)
Example half_known_size_kept :
  extractImages Sample.halfKnownPage
  = [ {| src := "http://example.com/bar.png"; alt := "image-0";
         type := "img-tag"; element := None; width := 10; height := 0 |} ].
Proof. reflexivity. Qed.

(** ** Duplicates (C2) *)

(** C2, as the spec has it, fails: the icon is found by Method 1 (16 x 16)
    and by Method 2, and no entry with its source is returned. *)
Lemma C2_counterexample :
  let s := "http://example.com/icon.png" in
  In s (map src (detect ImgTags Sample.iconPage))
  /\ In s (map src (detect BackgroundImages Sample.iconPage))
  /\ count_occ string_dec (map src (extractImages Sample.iconPage)) s <> 1%nat.
Proof.
  split; [|split].
  - left; reflexivity.
  - left; reflexivity.
  - vm_compute. discriminate.
Qed.

(** C2, amended. For every source URL, the returned array has one entry
    with it when the first candidate with that URL (Methods 1 to 4 in turn)
    passes the size test, and none otherwise; so never two. *)
Theorem C2_one_entry_per_source (doc : Dom.node) (s : string) :
  count_occ string_dec (map src (extractImages doc)) s
  = match find (fun c => String.eqb (src c) s)
               (method1 doc ++ method2 doc ++ method3 doc ++ method4 doc) with
    | Some c => if isTooSmall c then 0%nat else 1%nat
    | None => 0%nat
    end.
Proof. apply uniqueImages_count. Qed.

(** ** Order of the methods (C3) *)

(** C3, as the spec has it, fails: with Method 4 run first the entry kept
    for the logo is the lazy one. *)
Lemma C3_counterexample :
  Permutation Sample.lazyFirst scriptOrder
  /\ extractWith Sample.lazyFirst Sample.logoPage
     <> extractImages Sample.logoPage.
Proof.
  split.
  - unfold Sample.lazyFirst, scriptOrder.
    change [LazyData; ImgTags; BackgroundImages; PictureSrcset]
      with ([LazyData] ++ [ImgTags; BackgroundImages; PictureSrcset])%list.
    change [ImgTags; BackgroundImages; PictureSrcset; LazyData]
      with ([ImgTags; BackgroundImages; PictureSrcset] ++ [LazyData])%list.
    apply Permutation_app_comm.
  - vm_compute. discriminate.
Qed.

Lemma find_some_In (s : string) (l : list image) :
  (exists c, In c l /\ src c = s)
  -> exists c, find (sameSrc s) l = Some c /\ In c l /\ src c = s.
Proof.
  intros (c & Hin & Hs).
  destruct (find (sameSrc s) l) as [d|] eqn:F.
  - apply find_some in F as [Hd Hsd]. exists d. split; [reflexivity|].
    split; [exact Hd|]. now apply String.eqb_eq.
  - exfalso. pose proof (find_none _ _ F c Hin) as Hn.
    unfold sameSrc in Hn. rewrite Hs, String.eqb_refl in Hn. discriminate.
Qed.

(** When candidates with the same source agree on the size test, the
    sources returned are those of the candidates that pass it. *)
Lemma uniqueImages_sources (l : list image) (s : string) :
  (forall c d, In c l -> In d l -> src c = src d -> isTooSmall c = isTooSmall d) ->
  In s (map src (uniqueImages l))
  <-> exists c, In c l /\ src c = s /\ isTooSmall c = false.
Proof.
  intros Hagree. split.
  - intros H. apply in_map_iff in H as (c & Hs & Hc).
    apply uniqueImages_In in Hc as [Hc Hok]. eauto.
  - intros (c & Hc & Hs & Hok).
    apply (count_occ_In string_dec). rewrite uniqueImages_count.
    destruct (find_some_In s l) as (d & F & Hd & Hsd); [eauto|].
    rewrite F.
    rewrite (Hagree d c Hd Hc) by congruence. rewrite Hok. lia.
Qed.

Lemma candidates_Permutation (o1 o2 : list method) (doc : Dom.node) :
  Permutation o1 o2 -> Permutation (candidates o1 doc) (candidates o2 doc).
Proof. intros H. unfold candidates. now apply Permutation_flat_map. Qed.

(** C3, amended. If the candidates that share a source agree on the size
    test (as when none is too small), running the methods in another order
    returns the same sources, each once; the other fields of an entry and
    the order of the array depend on the order of the methods. *)
Theorem C3_sources_order_independent
        (doc : Dom.node) (o1 o2 : list method) :
  Permutation o1 o2 ->
  (forall c d, In c (candidates o1 doc) -> In d (candidates o1 doc) ->
               src c = src d -> isTooSmall c = isTooSmall d) ->
  Permutation (map src (extractWith o1 doc)) (map src (extractWith o2 doc)).
Proof.
  intros Hperm Hagree.
  pose proof (candidates_Permutation o1 o2 doc Hperm) as Hc.
  assert (Hagree2 : forall c d, In c (candidates o2 doc) ->
                                In d (candidates o2 doc) ->
                                src c = src d -> isTooSmall c = isTooSmall d).
  { intros c d Hin1 Hin2. apply Hagree.
    - apply (Permutation_in _ (Permutation_sym Hc) Hin1).
    - apply (Permutation_in _ (Permutation_sym Hc) Hin2). }
  apply NoDup_Permutation; try apply uniqueImages_NoDup.
  intros s. unfold extractWith.
  rewrite (uniqueImages_sources _ s Hagree), (uniqueImages_sources _ s Hagree2).
  split; intros (c & Hin & Hs); exists c; split; auto.
  - apply (Permutation_in _ Hc Hin).
  - apply (Permutation_in _ (Permutation_sym Hc) Hin).
Qed.

Lemma C3_sources_order_independent_witness :
  Permutation (map src (extractWith Sample.lazyFirst Sample.logoPage))
              (map src (extractWith scriptOrder Sample.logoPage)).
Proof.
  apply C3_sources_order_independent.
  - unfold Sample.lazyFirst, scriptOrder.
    change [LazyData; ImgTags; BackgroundImages; PictureSrcset]
      with ([LazyData] ++ [ImgTags; BackgroundImages; PictureSrcset])%list.
    change [ImgTags; BackgroundImages; PictureSrcset; LazyData]
      with ([ImgTags; BackgroundImages; PictureSrcset] ++ [LazyData])%list.
    apply Permutation_app_comm.
  - intros c d Hc Hd _.
    vm_compute in Hc, Hd.
    destruct Hc as [<-|[<-|[]]]; destruct Hd as [<-|[<-|[]]]; reflexivity.
Defined.

(** ** Sources begin with http (C4, script level) *)

Lemma method1_http doc c : In c (method1 doc) -> Js.startsWith (src c) "http" = true.
Proof.
  intros H. apply forEach_from_In in H as (e & k & _ & H).
  destruct (Dom.src e) as [s|]; [|contradiction].
  destruct (nonEmpty s && Js.startsWith s "http") eqn:G; [|contradiction].
  destruct H as [<-|[]]. simpl. now apply andb_true_iff in G.
Qed.

Lemma method2_http doc c : In c (method2 doc) -> Js.startsWith (src c) "http" = true.
Proof.
  intros H. apply forEach_from_In in H as (e & k & _ & H). cbv zeta in H.
  destruct (_ && Js.includes _ _); [|contradiction].
  destruct (UrlRegex.urlMatch _) as [u|]; [|contradiction].
  destruct (nonEmpty u && Js.startsWith u "http") eqn:G; [|contradiction].
  destruct H as [<-|[]]. simpl. now apply andb_true_iff in G.
Qed.

Lemma last_of_filter {A} (p : A -> bool) (l : list A) (d : A) :
  List.filter p l <> [] ->
  p (nth (List.length (List.filter p l) - 1) (List.filter p l) d) = true.
Proof.
  intros Hne.
  assert (Hin : In (nth (List.length (List.filter p l) - 1) (List.filter p l) d)
                   (List.filter p l)).
  { apply nth_In. destruct (List.filter p l); [congruence|simpl; lia]. }
  now apply filter_In in Hin.
Qed.

Lemma method3_http doc c : In c (method3 doc) -> Js.startsWith (src c) "http" = true.
Proof.
  intros H. apply forEach_from_In in H as (e & k & _ & H).
  destruct (Js.or _ _) as [s|]; [|contradiction].
  destruct (nonEmpty s && Js.includes s "http"); [|contradiction].
  cbv zeta in H.
  destruct (0 <? _) eqn:G; [|contradiction].
  destruct H as [<-|[]]. cbn [src].
  apply (last_of_filter (fun url => Js.startsWith url "http")).
  intros E. rewrite E in G. discriminate.
Qed.

Lemma method4_http doc c : In c (method4 doc) -> Js.startsWith (src c) "http" = true.
Proof.
  intros H. apply forEach_from_In in H as (e & k & _ & H). cbv zeta in H.
  destruct (Js.or _ _) as [s|]; [|contradiction].
  destruct (nonEmpty s && Js.startsWith s "http") eqn:G; [|contradiction].
  destruct H as [<-|[]]. simpl. now apply andb_true_iff in G.
Qed.

Lemma extractImages_http (doc : Dom.node) (c : image) :
  In c (extractImages doc) -> Js.startsWith (src c) "http" = true.
Proof.
  intros H. apply uniqueImages_In in H as [H _].
  repeat (apply in_app_or in H as [H|H]);
    eauto using method1_http, method2_http, method3_http, method4_http.
Qed.

(** * Properties of the handlers *)

(** ** Stepping through handler code *)

Lemma bind_assoc_at {A B C} (m : M A) (k : A -> M B) (h : B -> M C) e s :
  bind (bind m k) h e s = bind m (fun a => bind (k a) h) e s.
Proof. unfold bind. destruct (m e s) as [[a|msg] s1]; reflexivity. Qed.

Lemma bind_await {B} (c : call) (k : unit -> M B) e s :
  bind (await c) k e s
  = match rejects e (List.length (log s)) with
    | Some msg => (Throw msg, logged s [c])
    | None => k tt e (logged s [c])
    end.
Proof. unfold bind, await, logged. now destruct (rejects e _). Qed.

Lemma bind_ret {A B} (a : A) (k : A -> M B) e s : bind (ret a) k e s = k a e s.
Proof. reflexivity. Qed.

Lemma bind_ask {A B} (f : env -> A) (k : A -> M B) e s :
  bind (ask f) k e s = k (f e) e s.
Proof. reflexivity. Qed.

Lemma bind_Ok_inv {A B} (m : M A) (k : A -> M B) e s b s' :
  bind m k e s = (Ok b, s') ->
  exists a s1, m e s = (Ok a, s1) /\ k a e s1 = (Ok b, s').
Proof.
  unfold bind. destruct (m e s) as [[a|msg] s1]; intros H.
  - now exists a, s1.
  - discriminate.
Qed.

Lemma bind_ext {A B} (m : M A) (k k' : A -> M B) e s :
  (forall a s1, k a e s1 = k' a e s1) -> bind m k e s = bind m k' e s.
Proof.
  intros H. unfold bind. destruct (m e s) as [[a|msg] s1]; [apply H|reflexivity].
Qed.

(** Both sides of an equation between handler code, unfolded call by call. *)
Ltac await_steps :=
  cbv beta;
  repeat (first [rewrite bind_assoc_at | rewrite bind_ask | rewrite bind_ret
                | rewrite bind_await];
          cbv beta).

Lemma scroll_awaitAll e s :
  scrollPageToLoadImages e s = awaitAll (scrollCalls (innerHeight e)) e s.
Proof.
  unfold scrollPageToLoadImages, scrollCalls.
  change (Z.to_nat scrollSteps) with 5%nat.
  cbn [forLoop awaitAll].
  await_steps. reflexivity.
Qed.

Lemma awaitAll_app (cs ds : list call) e s :
  awaitAll (cs ++ ds) e s = bind (awaitAll cs) (fun _ => awaitAll ds) e s.
Proof.
  revert s; induction cs as [|c cs IH]; intros s; [reflexivity|].
  cbn [awaitAll app]. rewrite bind_assoc_at, !bind_await.
  destruct (rejects e _); [reflexivity|apply IH].
Qed.

Lemma tryExtract_awaitAll url e s :
  tryExtract url e s
  = (logUrl url ;;;
     initBrowser ;;;
     awaitAll (pageCalls url (innerHeight e)) ;;;
     ret (okResponse url (extractImages (document e)))) e s.
Proof.
  unfold tryExtract.
  apply bind_ext. intros _ s0.
  apply bind_ext. intros _ s1.
  unfold scrollPageToLoadImages, pageCalls, scrollCalls.
  change (Z.to_nat scrollSteps) with 5%nat.
  cbn [forLoop awaitAll app].
  await_steps. reflexivity.
Qed.

(** ** What a sequence of awaited calls does *)

Lemma logged_nil s : logged s [] = s.
Proof. destruct s. unfold logged. simpl. now rewrite app_nil_r. Qed.

Lemma logged_cons s c cs : logged (logged s [c]) cs = logged s (c :: cs).
Proof. unfold logged. simpl. now rewrite <- app_assoc. Qed.

Lemma length_logged1 s c :
  List.length (log (logged s [c])) = S (List.length (log s)).
Proof. unfold logged. simpl. rewrite length_app. simpl. lia. Qed.

(** Every call resolves: all of them are made, in order. *)
Lemma awaitAll_ok (cs : list call) e s :
  (forall k, (k < List.length cs)%nat ->
             rejects e (List.length (log s) + k) = None) ->
  awaitAll cs e s = (Ok tt, logged s cs).
Proof.
  revert s; induction cs as [|c cs IH]; intros s H.
  - simpl. now rewrite logged_nil.
  - cbn [awaitAll]. rewrite bind_await.
    pose proof (H 0%nat ltac:(simpl; lia)) as H0.
    rewrite Nat.add_0_r in H0. rewrite H0.
    rewrite IH, logged_cons; [reflexivity|].
    intros k Hk. rewrite length_logged1.
    replace (S (List.length (log s)) + k)%nat
      with (List.length (log s) + S k)%nat by lia.
    apply H. simpl. lia.
Qed.

(** The [n]-th call is the first to reject: the calls up to it are made and
    its message is thrown. *)
Lemma awaitAll_throw (cs : list call) e s (n : nat) (msg : string) :
  (n < List.length cs)%nat ->
  rejects e (List.length (log s) + n) = Some msg ->
  (forall k, (k < n)%nat -> rejects e (List.length (log s) + k) = None) ->
  awaitAll cs e s = (Throw msg, logged s (firstn (S n) cs)).
Proof.
  revert s n; induction cs as [|c cs IH]; intros s n Hn Hrej Hbefore.
  - simpl in Hn. lia.
  - cbn [awaitAll]. rewrite bind_await.
    destruct n as [|n].
    + rewrite Nat.add_0_r in Hrej. rewrite Hrej. reflexivity.
    + pose proof (Hbefore 0%nat ltac:(lia)) as H0.
      rewrite Nat.add_0_r in H0. rewrite H0.
      rewrite (IH _ n), logged_cons; [reflexivity | simpl in Hn; lia | |].
      * rewrite length_logged1. rewrite <- Hrej. f_equal. lia.
      * intros k Hk. rewrite length_logged1.
        replace (S (List.length (log s)) + k)%nat
          with (List.length (log s) + S k)%nat by lia.
        apply Hbefore. lia.
Qed.

Lemma awaitAll_browser (cs : list call) e s :
  browser (snd (awaitAll cs e s)) = browser s.
Proof.
  revert s; induction cs as [|c cs IH]; intros s; [reflexivity|].
  cbn [awaitAll]. rewrite bind_await.
  destruct (rejects e _); [reflexivity|]. now rewrite IH.
Qed.

(** Whatever rejects, the calls made are the first few of the sequence. *)
Lemma awaitAll_prefix (cs : list call) e s :
  exists n, snd (awaitAll cs e s) = logged s (firstn n cs).
Proof.
  revert s; induction cs as [|c cs IH]; intros s.
  - exists 0%nat. simpl. now rewrite logged_nil.
  - cbn [awaitAll]. rewrite bind_await.
    destruct (rejects e _).
    + exists 1%nat. reflexivity.
    + destruct (IH (logged s [c])) as [n Hn].
      exists (S n). rewrite Hn. simpl firstn. apply logged_cons.
Qed.

(** The calls depend on the environment through [rejects] only. *)
Lemma awaitAll_env (cs : list call) e e' s :
  (forall n, rejects e n = rejects e' n) ->
  awaitAll cs e s = awaitAll cs e' s.
Proof.
  intros H. revert s; induction cs as [|c cs IH]; intros s; [reflexivity|].
  cbn [awaitAll]. rewrite !bind_await, <- H.
  destruct (rejects e _); [reflexivity|apply IH].
Qed.

(** ** [initBrowser] *)

Lemma initBrowser_some e s h :
  browser s = Some h -> initBrowser e s = (Ok h, s).
Proof. intros H. unfold initBrowser, bind, getBrowser. now rewrite H. Qed.

Lemma initBrowser_none e s :
  browser s = None ->
  initBrowser e s
  = match rejects e (List.length (log s)) with
    | Some msg => (Throw msg, logged s [Launch true launchArgs])
    | None => (Ok Browser,
               {| browser := Some Browser;
                  log := log s ++ [Launch true launchArgs] |})
    end.
Proof.
  intros H. unfold initBrowser, bind, getBrowser. rewrite H.
  unfold await, logged.
  destruct (rejects e _); reflexivity.
Qed.

(** ** The [try] block *)

(** Every call resolves: the handler makes all its calls and answers 200. *)
Lemma logUrl_ok url e s : printableUrl url = true -> logUrl url e s = (Ok tt, s).
Proof. intros H. unfold logUrl. now rewrite H. Qed.

(** The conversion of [url] throws: the [try] block throws at once. *)
Lemma tryExtract_unprintable url e s :
  printableUrl url = false -> tryExtract url e s = (Throw typeErrorMessage, s).
Proof.
  intros H. rewrite tryExtract_awaitAll. unfold bind at 1, logUrl.
  now rewrite H.
Qed.

Lemma tryExtract_ok url e s :
  printableUrl url = true ->
  (forall k,
      (k < List.length (handlerCalls (browser s) url (innerHeight e)))%nat ->
      rejects e (List.length (log s) + k) = None) ->
  tryExtract url e s
  = (Ok (okResponse url (extractImages (document e))),
     {| browser := Some Browser;
        log := log s ++ handlerCalls (browser s) url (innerHeight e) |}).
Proof.
  intros Hp H. rewrite tryExtract_awaitAll.
  unfold bind at 1. rewrite (logUrl_ok url e s Hp).
  destruct (browser s) as [[]|] eqn:Hb; unfold bind at 1.
  - rewrite (initBrowser_some e s Browser Hb).
    unfold bind. rewrite awaitAll_ok by exact H.
    unfold ret, logged, handlerCalls. now rewrite Hb.
  - rewrite (initBrowser_none e s Hb).
    pose proof (H 0%nat ltac:(simpl; lia)) as H0.
    rewrite Nat.add_0_r in H0. rewrite H0.
    unfold bind. rewrite awaitAll_ok.
    + unfold ret, logged, handlerCalls. simpl. now rewrite <- app_assoc.
    + intros k Hk. simpl log. rewrite length_app. simpl List.length.
      replace (List.length (log s) + 1 + k)%nat
        with (List.length (log s) + S k)%nat by lia.
      apply H. simpl. simpl in Hk. lia.
Qed.

(** The [n]-th call of the handler is the first to reject: its message is
    thrown. *)
Lemma tryExtract_throw url e s (n : nat) (msg : string) :
  printableUrl url = true ->
  (n < List.length (handlerCalls (browser s) url (innerHeight e)))%nat ->
  rejects e (List.length (log s) + n) = Some msg ->
  (forall k, (k < n)%nat -> rejects e (List.length (log s) + k) = None) ->
  fst (tryExtract url e s) = Throw msg.
Proof.
  intros Hp Hn Hrej Hbefore. rewrite tryExtract_awaitAll.
  unfold bind at 1. rewrite (logUrl_ok url e s Hp).
  destruct (browser s) as [[]|] eqn:Hb; unfold bind at 1.
  - rewrite (initBrowser_some e s Browser Hb).
    unfold bind. now rewrite (awaitAll_throw _ e s n msg).
  - rewrite (initBrowser_none e s Hb).
    destruct n as [|n].
    + rewrite Nat.add_0_r in Hrej. now rewrite Hrej.
    + pose proof (Hbefore 0%nat ltac:(lia)) as H0.
      rewrite Nat.add_0_r in H0. rewrite H0.
      unfold bind. rewrite (awaitAll_throw _ e _ n msg); [reflexivity| | |].
      * simpl in Hn. simpl. lia.
      * simpl log. rewrite length_app. simpl List.length.
        rewrite <- Hrej. f_equal. lia.
      * intros k Hk. simpl log. rewrite length_app. simpl List.length.
        replace (List.length (log s) + 1 + k)%nat
          with (List.length (log s) + S k)%nat by lia.
        apply Hbefore. lia.
Qed.

(** A result of the [try] block is the 200 response for the images the
    script returns. *)
Lemma tryExtract_Ok_inv url e s r s' :
  tryExtract url e s = (Ok r, s') ->
  r = okResponse url (extractImages (document e)).
Proof.
  rewrite tryExtract_awaitAll. intros H.
  apply bind_Ok_inv in H as (u0 & s0 & _ & H).
  apply bind_Ok_inv in H as (h & s1 & _ & H).
  apply bind_Ok_inv in H as (u & s2 & _ & H).
  unfold ret in H. congruence.
Qed.

Lemma post_200_inv body e s b s' :
  postExtractImages body e s = (Resp 200 b, s') ->
  exists u, getProp "url" body = Some u
            /\ Resp 200 b = okResponse (Some u) (extractImages (document e)).
Proof.
  unfold postExtractImages.
  destruct (truthy (getProp "url" body)) eqn:Ht; simpl; [|discriminate].
  destruct (getProp "url" body) as [u|]; [|discriminate].
  destruct (tryExtract (Some u) e s) as [[r|msg] s1] eqn:Hr; [|discriminate].
  intros H. exists u. split; [reflexivity|].
  apply tryExtract_Ok_inv in Hr. congruence.
Qed.

(** ** Sources in a successful response (C4) *)

(** C4, as the spec has it, fails: a [data-src] that is a relative path
    beginning with http is returned in a 200 response. *)
Lemma C4_counterexample :
  let bad := {| src := "httpdocs/banner.png"; alt := "lazy-0";
                type := "lazy-loading"; element := None;
                width := 0; height := 0 |} in
  fst (postExtractImages (Run.urlBody "http://example.com")
                         (Run.smooth Sample.relativePage) initial)
  = okResponse (Some (JStr "http://example.com")) [bad]
  /\ spec_absoluteHttpUrl (src bad) = false.
Proof. split; reflexivity. Qed.

(** C4, amended. In a 200 response the [images] array is the array the
    script returned, and the source of each of its entries starts with
    http. *)
Theorem C4_sources_start_with_http body e s b s' :
  postExtractImages body e s = (Resp 200 b, s') ->
  exists imgs u,
    b = JObj [("success", JBool true);
              ("images", JArr (map image_to_json imgs));
              ("count", JNum (Z.of_nat (List.length imgs)));
              ("url", u)]
    /\ forall i, In i imgs -> Js.startsWith (src i) "http" = true.
Proof.
  intros H. apply post_200_inv in H as (u & _ & H).
  exists (extractImages (document e)), u. split.
  - unfold okResponse in H. congruence.
  - intros i. apply extractImages_http.
Qed.

Lemma C4_sources_start_with_http_witness :
  exists imgs u,
    JObj [("success", JBool true);
          ("images", JArr (map image_to_json (extractImages Sample.logoPage)));
          ("count", JNum 1);
          ("url", JStr "http://example.com")]
    = JObj [("success", JBool true);
            ("images", JArr (map image_to_json imgs));
            ("count", JNum (Z.of_nat (List.length imgs)));
            ("url", u)]
    /\ forall i, In i imgs -> Js.startsWith (src i) "http" = true.
Proof.
  apply (C4_sources_start_with_http
           (Run.urlBody "http://example.com") (Run.smooth Sample.logoPage)
           initial
           (JObj [("success", JBool true);
                  ("images",
                   JArr (map image_to_json (extractImages Sample.logoPage)));
                  ("count", JNum 1);
                  ("url", JStr "http://example.com")])
           (snd (postExtractImages (Run.urlBody "http://example.com")
                                   (Run.smooth Sample.logoPage) initial))).
  vm_compute. reflexivity.
Defined.

(** ** Failures (C5) *)

(** C5. When something in the [try] block fails, the response is 500 and
    its [message] is the message of that failure: the TypeError of the log
    line when [url] cannot be converted to a string, and otherwise the
    rejection of the first call to reject among those the handler awaits
    (launch, page set-up, navigation, scrolling, the extraction script,
    closing the page). *)
Theorem C5_failure_message_passed_through body e s (n : nat) (msg : string) :
  truthy (getProp "url" body) = true ->
  (printableUrl (getProp "url" body) = false ->
   fst (postExtractImages body e s)
   = Resp 500 (JObj [("error", JStr "Failed to extract images");
                     ("message", JStr typeErrorMessage)]))
  /\ (printableUrl (getProp "url" body) = true ->
      (n < List.length (handlerCalls (browser s) (getProp "url" body)
                                     (innerHeight e)))%nat ->
      rejects e (List.length (log s) + n) = Some msg ->
      (forall k, (k < n)%nat -> rejects e (List.length (log s) + k) = None) ->
      fst (postExtractImages body e s)
      = Resp 500 (JObj [("error", JStr "Failed to extract images");
                        ("message", JStr msg)])).
Proof.
  intros Ht. unfold postExtractImages. rewrite Ht. simpl negb. cbv iota.
  split.
  - intros Hp. now rewrite (tryExtract_unprintable _ e s Hp).
  - intros Hp Hn Hrej Hbefore.
    pose proof (tryExtract_throw _ e s n msg Hp Hn Hrej Hbefore) as H.
    destruct (tryExtract (getProp "url" body) e s) as [[r|m] s1];
      simpl in H; [discriminate|].
    injection H as ->. reflexivity.
Qed.

(** Navigation to an unreachable host: [page.goto] is the fourth call of the
    first extraction request. And a [url] that is an object with a
    [toString] key. *)
Lemma C5_failure_message_passed_through_witness :
  let msg := "net::ERR_NAME_NOT_RESOLVED at http://nowhere.invalid" in
  let body := Run.urlBody "http://nowhere.invalid" in
  let odd := [("url", JObj [("toString", JNum 0)])] in
  nth_error (handlerCalls None (getProp "url" body) 800) 3
  = Some (Goto (Some (JStr "http://nowhere.invalid")) "networkidle2" 30000)
  /\ fst (postExtractImages body (Run.failing 3 msg Sample.logoPage) initial)
     = Resp 500 (JObj [("error", JStr "Failed to extract images");
                       ("message", JStr msg)])
  /\ fst (postExtractImages odd (Run.smooth Sample.logoPage) initial)
     = Resp 500 (JObj [("error", JStr "Failed to extract images");
                       ("message",
                        JStr "Cannot convert object to primitive value")]).
Proof.
  intros msg body odd. split; [reflexivity|]. split.
  - apply (proj2 (C5_failure_message_passed_through
                    body (Run.failing 3 msg Sample.logoPage) initial 3 msg
                    eq_refl)).
    + reflexivity.
    + simpl. lia.
    + reflexivity.
    + intros k Hk. simpl.
      destruct k as [|[|[|k]]]; [reflexivity|reflexivity|reflexivity|lia].
  - apply (proj1 (C5_failure_message_passed_through
                    odd (Run.smooth Sample.logoPage) initial 0 ""
                    eq_refl)).
    reflexivity.
Defined.

(** ** The browser flag (C6) *)

Lemma step_browser (st : sstate) (ev : event) :
  isSome (s_browser (fst (step st ev)))
  = isSome (s_browser st) || resolvesLaunch st ev.
Proof.
  destruct ev as [req e|i]; simpl.
  - rewrite orb_false_r. destruct req as [body| |]; simpl; try reflexivity.
    destruct (negb (truthy _)); [reflexivity|].
    destruct (negb (printableUrl _)); reflexivity.
  - unfold settle. destruct (nth_error (s_tasks st) i) as [t|];
      [|now rewrite orb_false_r].
    destruct (rejects (t_env t) (t_done t)); [simpl; now rewrite orb_false_r|].
    destruct (nth_error (t_calls t) (t_done t)) as [c|];
      [destruct c|];
      destruct (S (t_done t) <? List.length (t_calls t))%nat; simpl;
      rewrite ?orb_false_r, ?orb_true_r; reflexivity.
Qed.

Lemma exec_cons (st : sstate) (ev : event) (rest : list event) :
  exec st (ev :: rest)
  = (fst (exec (fst (step st ev)) rest),
     (snd (step st ev) ++ snd (exec (fst (step st ev)) rest))%list).
Proof.
  simpl. destruct (step st ev) as [st1 r1]. simpl.
  destruct (exec st1 rest) as [st2 r2]. reflexivity.
Qed.

Lemma exec_browser (evs : list event) (st : sstate) :
  isSome (s_browser (fst (exec st evs)))
  = isSome (s_browser st) || launchResolved st evs.
Proof.
  revert st; induction evs as [|ev rest IH]; intros st.
  - simpl. now rewrite orb_false_r.
  - rewrite exec_cons. cbn [fst launchResolved].
    rewrite IH, step_browser. now rewrite orb_assoc.
Qed.

(** C6, as the spec has it, fails: when [puppeteer.launch] rejects, the
    request has reached browser initialization (the launch is in its record
    of calls) and the health check still reports [browser: false]. *)
Lemma C6_counterexample :
  let e := Run.failing 0 "Failed to launch the browser process!"
                       Sample.logoPage in
  let s1 := snd (serve (PostExtractImages (Run.urlBody "http://example.com"))
                       e (fresh initial)) in
  In (Launch true launchArgs) (log s1)
  /\ fst (serve GetHealth e (fresh s1))
     = Resp 200 (JObj [("status", JStr "OK"); ("browser", JBool false)]).
Proof. split; [left; reflexivity | reflexivity]. Qed.

(** The same with the requests in flight: the launch is pending when the
    first health check is answered, and has rejected before the second. *)
Example health_while_launch_fails :
  let e := Run.failing 0 "Failed to launch the browser process!"
                       Sample.logoPage in
  snd (exec booted
         [Arrive (PostExtractImages (Run.urlBody "http://example.com")) e;
          Arrive GetHealth e; Settle 0; Arrive GetHealth e])
  = [Resp 200 (JObj [("status", JStr "OK"); ("browser", JBool false)]);
     Resp 500 (JObj [("error", JStr "Failed to extract images");
                     ("message",
                      JStr "Failed to launch the browser process!")]);
     Resp 200 (JObj [("status", JStr "OK"); ("browser", JBool false)])].
Proof. reflexivity. Qed.

(** C6, amended. Whatever the order in which requests arrive and their
    pending calls settle, a health check is answered [browser: true] exactly
    when a [puppeteer.launch] awaited by an extraction request has resolved
    before it: so [false] before any launch has resolved (also while one is
    pending, and after one that rejected), [true] after one has resolved
    whatever becomes of that extraction; and once [true] it stays [true]. *)
Theorem C6_health_reports_launched_browser :
  (forall evs e,
      snd (step (fst (exec booted evs)) (Arrive GetHealth e))
      = [Resp 200 (JObj [("status", JStr "OK");
                         ("browser", JBool (launchResolved booted evs))])])
  /\ (forall st evs e e',
         snd (step st (Arrive GetHealth e))
         = [Resp 200 (JObj [("status", JStr "OK"); ("browser", JBool true)])] ->
         snd (step (fst (exec st evs)) (Arrive GetHealth e'))
         = [Resp 200 (JObj [("status", JStr "OK"); ("browser", JBool true)])]).
Proof.
  split.
  - intros evs e. cbn [step arrive snd]. unfold getHealth, seenBy.
    cbn [browser]. now rewrite exec_browser.
  - intros st evs e e'. cbn [step arrive snd]. unfold getHealth, seenBy.
    cbn [browser]. rewrite exec_browser.
    intros H. injection H as ->. reflexivity.
Qed.

Lemma C6_health_reports_launched_browser_witness :
  let post := Arrive (PostExtractImages (Run.urlBody "http://nowhere.invalid"))
                     (Run.failing 3 "net::ERR_NAME_NOT_RESOLVED"
                                  Sample.logoPage) in
  let e := Run.smooth Sample.logoPage in
  snd (step (fst (exec booted [post])) (Arrive GetHealth e))
  = [Resp 200 (JObj [("status", JStr "OK"); ("browser", JBool false)])]
  /\ snd (step (fst (exec (fst (exec booted [post; Settle 0]))
                          [Settle 0; Settle 0; Settle 0]))
               (Arrive GetHealth e))
     = [Resp 200 (JObj [("status", JStr "OK"); ("browser", JBool true)])].
Proof.
  intros post e. split.
  - exact (proj1 C6_health_reports_launched_browser [post] e).
  - apply (proj2 C6_health_reports_launched_browser
             (fst (exec booted [post; Settle 0]))
             [Settle 0; Settle 0; Settle 0] e e).
    reflexivity.
Defined.

(** ** Missing and falsy [url] (C7, C10) *)

Lemma post_without_url body e s :
  getProp "url" body = None ->
  postExtractImages body e s
  = (Resp 400 (JObj [("error", JStr "URL is required")]), s).
Proof. intros H. unfold postExtractImages. now rewrite H. Qed.

(** C7. A body without a [url] field is answered 400 with an error body;
    the state is unchanged: no call is made on the browser library (no
    launch, no page) and the module variable is as before. *)
Theorem C7_missing_url_400 body e s :
  getProp "url" body = None ->
  postExtractImages body e s
  = (Resp 400 (JObj [("error", JStr "URL is required")]), s).
Proof. apply post_without_url. Qed.

Lemma C7_missing_url_400_witness :
  postExtractImages [("uri", JStr "http://example.com")]
                    (Run.smooth Sample.logoPage) initial
  = (Resp 400 (JObj [("error", JStr "URL is required")]), initial).
Proof. apply C7_missing_url_400. reflexivity. Defined.

(** C10. A [url] field that is the empty string, [null], [false] or 0 is
    answered as a missing one: the same 400 response, and nothing done. *)
Theorem C10_falsy_url_400 body e s v :
  getProp "url" body = Some v ->
  v = JStr "" \/ v = JNull \/ v = JBool false \/ v = JNum 0 ->
  postExtractImages body e s
  = (Resp 400 (JObj [("error", JStr "URL is required")]), s)
  /\ forall body', getProp "url" body' = None ->
                   postExtractImages body e s = postExtractImages body' e s.
Proof.
  intros H Hv.
  assert (Hpost : postExtractImages body e s
                  = (Resp 400 (JObj [("error", JStr "URL is required")]), s)).
  { unfold postExtractImages. rewrite H.
    destruct Hv as [->|[->|[->| ->]]]; reflexivity. }
  split; [exact Hpost|].
  intros body' H'. now rewrite Hpost, post_without_url.
Qed.

Lemma C10_falsy_url_400_witness :
  postExtractImages [("url", JNum 0)] (Run.smooth Sample.logoPage) initial
  = (Resp 400 (JObj [("error", JStr "URL is required")]), initial)
  /\ postExtractImages [("url", JStr "")] (Run.smooth Sample.logoPage) initial
     = postExtractImages [] (Run.smooth Sample.logoPage) initial.
Proof.
  split.
  - apply (C10_falsy_url_400 _ _ _ (JNum 0)); [reflexivity|tauto].
  - apply (C10_falsy_url_400 _ _ _ (JStr "")); [reflexivity|tauto|reflexivity].
Defined.

(** ** The scroll helper (C8) *)

(** C8. The scroll helper reads the viewport height, scrolls to 0, 1, 2, 3
    and 4 times that height with a pause of 1000 ms after each, scrolls to
    the top and pauses once more: these are its calls when they all resolve,
    a rejection stops it somewhere along them, and what it does is the same
    for every document. *)
Theorem C8_scroll_five_fixed_steps e s :
  let plan :=
    [EvalInnerHeight;
     ScrollTo 0 (0 * innerHeight e); WaitForTimeout 1000;
     ScrollTo 0 (1 * innerHeight e); WaitForTimeout 1000;
     ScrollTo 0 (2 * innerHeight e); WaitForTimeout 1000;
     ScrollTo 0 (3 * innerHeight e); WaitForTimeout 1000;
     ScrollTo 0 (4 * innerHeight e); WaitForTimeout 1000;
     ScrollTo 0 0; WaitForTimeout 1000] in
  ((forall k, (k < 13)%nat -> rejects e (List.length (log s) + k) = None) ->
   scrollPageToLoadImages e s
   = (Ok tt, {| browser := browser s; log := log s ++ plan |}))
  /\ (exists n,
        snd (scrollPageToLoadImages e s)
        = {| browser := browser s; log := log s ++ firstn n plan |})
  /\ (forall doc',
         scrollPageToLoadImages
           {| rejects := rejects e; innerHeight := innerHeight e;
              document := doc' |} s
         = scrollPageToLoadImages e s).
Proof.
  intros plan. split; [|split].
  - intros H. rewrite scroll_awaitAll. now apply awaitAll_ok.
  - rewrite scroll_awaitAll. apply awaitAll_prefix.
  - intros doc'. rewrite !scroll_awaitAll. now apply awaitAll_env.
Qed.

Lemma C8_scroll_five_fixed_steps_witness :
  scrollPageToLoadImages (Run.smooth Sample.logoPage) initial
  = (Ok tt,
     {| browser := None;
        log := [EvalInnerHeight;
                ScrollTo 0 0; WaitForTimeout 1000;
                ScrollTo 0 800; WaitForTimeout 1000;
                ScrollTo 0 1600; WaitForTimeout 1000;
                ScrollTo 0 2400; WaitForTimeout 1000;
                ScrollTo 0 3200; WaitForTimeout 1000;
                ScrollTo 0 0; WaitForTimeout 1000] |}).
Proof.
  apply (proj1 (C8_scroll_five_fixed_steps (Run.smooth Sample.logoPage) initial)).
  intros k _. reflexivity.
Defined.

(** ** The success response (C9) *)

(** C9. In a 200 response of the extraction endpoint, [count] is the length
    of [images] and [url] is the [url] of the request body. *)
Theorem C9_count_and_url body e s b s' :
  postExtractImages body e s = (Resp 200 b, s') ->
  exists (items : list json) (u : json),
    getProp "url" body = Some u
    /\ b = JObj [("success", JBool true);
                 ("images", JArr items);
                 ("count", JNum (Z.of_nat (List.length items)));
                 ("url", u)].
Proof.
  intros H. apply post_200_inv in H as (u & Hu & H).
  exists (map image_to_json (extractImages (document e))), u.
  split; [exact Hu|].
  unfold okResponse in H. rewrite length_map. congruence.
Qed.

Lemma C9_count_and_url_witness :
  exists (items : list json) (u : json),
    getProp "url" (Run.urlBody "http://example.com") = Some u
    /\ JObj [("success", JBool true);
             ("images", JArr (map image_to_json (extractImages Sample.logoPage)));
             ("count", JNum 1);
             ("url", JStr "http://example.com")]
       = JObj [("success", JBool true);
               ("images", JArr items);
               ("count", JNum (Z.of_nat (List.length items)));
               ("url", u)].
Proof.
  apply (C9_count_and_url
           (Run.urlBody "http://example.com") (Run.smooth Sample.logoPage)
           initial
           (JObj [("success", JBool true);
                  ("images",
                   JArr (map image_to_json (extractImages Sample.logoPage)));
                  ("count", JNum 1);
                  ("url", JStr "http://example.com")])
           (snd (postExtractImages (Run.urlBody "http://example.com")
                                   (Run.smooth Sample.logoPage) initial))).
  vm_compute. reflexivity.
Defined.

(** When every call resolves, the handler answers 200 after the calls of
    [handlerCalls], so 200 responses exist. *)
Lemma post_all_resolve body e s :
  truthy (getProp "url" body) = true ->
  printableUrl (getProp "url" body) = true ->
  (forall k, rejects e k = None) ->
  postExtractImages body e s
  = (okResponse (getProp "url" body) (extractImages (document e)),
     {| browser := Some Browser;
        log := log s ++ handlerCalls (browser s) (getProp "url" body)
                                     (innerHeight e) |}).
Proof.
  intros Ht Hp H. unfold postExtractImages. rewrite Ht. simpl negb. cbv iota.
  now rewrite tryExtract_ok by (auto; intros; apply H).
Qed.

(** * Further properties of the extraction script *)

(** ** Which entries [uniqueImages] returns *)

Lemma keep_In_iff (c : image) (l pre : list image) :
  In c (keep pre l)
  <-> existsb (sameSrc (src c)) pre = false
      /\ find (sameSrc (src c)) l = Some c
      /\ isTooSmall c = false.
Proof.
  revert pre; induction l as [|x t IH]; intros pre.
  - simpl. split; [contradiction | intros (_ & H & _); discriminate].
  - cbn [keep find].
    assert (Hxx : sameSrc (src x) x = true) by apply String.eqb_refl.
    destruct (sameSrc (src c) x) eqn:Hcx.
    + assert (Hsrc : src x = src c) by now apply String.eqb_eq.
      split.
      * intros H.
        assert (Hhead : c = x).
        { destruct (negb _ && negb _) eqn:Hk.
          - destruct H as [H|H]; [now symmetry|].
            apply IH in H as (H & _). rewrite existsb_snoc, Hcx in H.
            now rewrite orb_true_r in H.
          - apply IH in H as (H & _). rewrite existsb_snoc, Hcx in H.
            now rewrite orb_true_r in H. }
        subst c.
        destruct (negb _ && negb _) eqn:Hk.
        -- apply andb_true_iff in Hk as [H1 H2].
           apply negb_true_iff in H1, H2. auto.
        -- apply IH in H as (H & _). rewrite existsb_snoc, Hxx in H.
           now rewrite orb_true_r in H.
      * intros (Hpre & Hf & Hok). injection Hf as ->.
        rewrite Hpre, Hok. simpl. now left.
    + split.
      * intros H.
        assert (Ht : In c (keep (pre ++ [x]) t)).
        { destruct (negb _ && negb _); [|exact H].
          destruct H as [H|H]; [|exact H].
          subst x. rewrite Hxx in Hcx. discriminate. }
        apply IH in Ht as (H1 & H2 & H3).
        rewrite existsb_snoc in H1. apply orb_false_elim in H1 as [H1 _]. auto.
      * intros (Hpre & Hf & Hok).
        assert (Ht : In c (keep (pre ++ [x]) t)).
        { apply IH. rewrite existsb_snoc, Hpre, Hcx. auto. }
        destruct (negb _ && negb _); [now right|exact Ht].
Qed.

(** X1. An entry is returned exactly when it is the first candidate with
    its source URL and passes the size test. *)
Theorem returned_iff_first_and_large_enough (doc : Dom.node) (c : image) :
  In c (extractImages doc)
  <-> find (fun d => String.eqb (src d) (src c))
           (method1 doc ++ method2 doc ++ method3 doc ++ method4 doc) = Some c
      /\ isTooSmall c = false.
Proof.
  unfold extractImages. rewrite uniqueImages_keep, keep_In_iff.
  simpl existsb. tauto.
Qed.

Lemma keep_fixed (l pre : list image) :
  NoDup (map src l) ->
  (forall x, In x l -> isTooSmall x = false
                       /\ existsb (sameSrc (src x)) pre = false) ->
  keep pre l = l.
Proof.
  revert pre; induction l as [|x t IH]; intros pre Hnd H; [reflexivity|].
  cbn [keep]. destruct (H x (or_introl eq_refl)) as [Hok Hpre].
  rewrite Hok, Hpre. simpl. f_equal.
  inversion Hnd as [|? ? Hx Ht]; subst.
  apply IH; [exact Ht|].
  intros y Hy. destruct (H y (or_intror Hy)) as [Hoky Hprey].
  split; [exact Hoky|].
  rewrite existsb_snoc, Hprey. simpl.
  unfold sameSrc. apply String.eqb_neq. intros E.
  apply Hx. rewrite E. now apply in_map.
Qed.

(** X2. Filtering an array that [uniqueImages] returned changes nothing. *)
Theorem uniqueImages_idempotent (l : list image) :
  uniqueImages (uniqueImages l) = uniqueImages l.
Proof.
  rewrite (uniqueImages_keep (uniqueImages l)).
  apply keep_fixed; [apply uniqueImages_NoDup|].
  intros x Hx. apply uniqueImages_In in Hx as [_ Hok]. auto.
Qed.

(** ** The shape of the entries *)


Lemma method1_shape doc c :
  In c (method1 doc) ->
  type c = "img-tag" /\ element c = None /\ nonEmpty (alt c) = true.
Proof.
  intros H. apply forEach_from_In in H as (e & k & _ & H).
  destruct (Dom.src e) as [s|]; [|contradiction].
  destruct (nonEmpty s && Js.startsWith s "http"); [|contradiction].
  destruct H as [<-|[]]. simpl. repeat split.
  destruct (Dom.alt e); reflexivity.
Qed.

Lemma method2_shape doc c :
  In c (method2 doc) ->
  type c = "background-image" /\ (exists t, element c = Some t)
  /\ (exists k, alt c = Js.withIndex "background-" k)
  /\ width c = 0 /\ height c = 0.
Proof.
  intros H. apply forEach_from_In in H as (e & k & _ & H). cbv zeta in H.
  destruct (_ && Js.includes _ _); [|contradiction].
  destruct (UrlRegex.urlMatch _) as [u|]; [|contradiction].
  destruct (nonEmpty u && Js.startsWith u "http"); [|contradiction].
  destruct H as [<-|[]]. simpl. eauto 8.
Qed.

Lemma method3_shape doc c :
  In c (method3 doc) ->
  type c = "picture-element" /\ element c = None
  /\ (exists k, alt c = Js.withIndex "picture-" k)
  /\ width c = 0 /\ height c = 0.
Proof.
  intros H. apply forEach_from_In in H as (e & k & _ & H).
  destruct (Js.or _ _) as [s|]; [|contradiction].
  destruct (nonEmpty s && Js.includes s "http"); [|contradiction].
  cbv zeta in H. destruct (0 <? _); [|contradiction].
  destruct H as [<-|[]]. simpl. eauto 8.
Qed.

Lemma method4_shape doc c :
  In c (method4 doc) ->
  type c = "lazy-loading" /\ element c = None
  /\ (exists k, alt c = Js.withIndex "lazy-" k)
  /\ width c = 0 /\ height c = 0.
Proof.
  intros H. apply forEach_from_In in H as (e & k & _ & H). cbv zeta in H.
  destruct (Js.or _ _) as [s|]; [|contradiction].
  destruct (nonEmpty s && Js.startsWith s "http"); [|contradiction].
  destruct H as [<-|[]]. simpl. eauto 8.
Qed.

Lemma later_methods_not_small doc c :
  In c (method2 doc ++ method3 doc ++ method4 doc) -> isTooSmall c = false.
Proof.
  intros H. unfold isTooSmall.
  repeat (apply in_app_or in H as [H|H]);
    [apply method2_shape in H | apply method3_shape in H
     | apply method4_shape in H];
    destruct H as (_ & _ & _ & -> & _); reflexivity.
Qed.



(** ** Sources found by one method or by several *)

Lemma find_app_l {A} (p : A -> bool) (l1 l2 : list A) (x : A) :
  In x l1 -> p x = true ->
  exists y, find p (l1 ++ l2) = Some y /\ In y l1.
Proof.
  induction l1 as [|a l1 IH]; simpl; intros Hin Hp; [contradiction|].
  destruct (p a) eqn:Ha.
  - exists a. auto.
  - destruct Hin as [->|Hin]; [congruence|].
    destruct (IH Hin Hp) as (y & Hy & Hyin). eauto.
Qed.

Lemma find_app_r {A} (p : A -> bool) (l1 l2 : list A) :
  (forall x, In x l1 -> p x = false) -> find p (l1 ++ l2) = find p l2.
Proof.
  induction l1 as [|a l1 IH]; simpl; intros H; [reflexivity|].
  rewrite (H a (or_introl eq_refl)). apply IH. auto.
Qed.

(** X3. A source URL that no img tag has and that a background image, a
    picture/srcset element or a lazy data attribute has is returned in
    exactly one entry. *)
Theorem source_without_img_returned_once (doc : Dom.node) (s : string) :
  (forall d, In d (method1 doc) -> src d <> s) ->
  (exists c, In c (method2 doc ++ method3 doc ++ method4 doc) /\ src c = s) ->
  count_occ string_dec (map src (extractImages doc)) s = 1%nat.
Proof.
  intros Hno Hsome. unfold extractImages. rewrite uniqueImages_count.
  rewrite find_app_r.
  - destruct (find_some_In s _ Hsome) as (d & -> & Hd & _).
    now rewrite (later_methods_not_small doc d Hd).
  - intros x Hx. apply String.eqb_neq. now apply Hno.
Qed.

Lemma source_without_img_returned_once_witness :
  count_occ string_dec (map src (extractImages Sample.relativePage))
            "httpdocs/banner.png" = 1%nat.
Proof.
  apply source_without_img_returned_once.
  - intros d Hd. vm_compute in Hd. contradiction.
  - eexists. split; [left; reflexivity | reflexivity].
Defined.

(** X4. When an img tag has a source URL, the entry returned for that URL,
    if there is one, is an img-tag entry: the other methods never replace
    it. *)
Theorem img_tag_entry_wins (doc : Dom.node) (c : image) :
  In c (extractImages doc) ->
  (exists d, In d (method1 doc) /\ src d = src c) ->
  In c (method1 doc) /\ type c = "img-tag".
Proof.
  intros Hc (d & Hd & Hs).
  unfold extractImages in Hc.
  rewrite uniqueImages_keep, keep_In_iff in Hc. destruct Hc as (_ & Hf & _).
  destruct (find_app_l (sameSrc (src c)) (method1 doc)
                       (method2 doc ++ method3 doc ++ method4 doc) d Hd)
    as (y & Hy & Hyin); [now apply String.eqb_eq|].
  rewrite Hf in Hy. injection Hy as <-.
  split; [exact Hyin|]. now apply method1_shape in Hyin.
Qed.

Lemma img_tag_entry_wins_witness :
  let c := {| src := "http://example.com/a.jpg"; alt := "logo";
              type := "img-tag"; element := None;
              width := 200; height := 100 |} in
  In c (method1 Sample.logoPage) /\ type c = "img-tag".
Proof.
  apply img_tag_entry_wins.
  - left. reflexivity.
  - eexists. split; [left; reflexivity | reflexivity].
Defined.

(** ** The pattern of Method 2 *)

Lemma append_assoc_s (a b c : string) : ((a ++ b) ++ c = a ++ (b ++ c))%string.
Proof. induction a as [|x a IH]; simpl; [reflexivity|now rewrite IH]. Qed.

Lemma prefix_split (p s : string) :
  String.prefix p s = true -> exists t, s = (p ++ t)%string.
Proof.
  revert s; induction p as [|a p IH]; intros s H.
  - exists s. reflexivity.
  - destruct s as [|b s]; simpl in H; [discriminate|].
    destruct (ascii_dec a b) as [->|]; [|discriminate].
    destruct (IH s H) as [t ->]. now exists t.
Qed.

Lemma prefix_append (p t : string) : String.prefix p (p ++ t) = true.
Proof.
  induction p as [|a p IH]; simpl; [now destruct t|].
  destruct (ascii_dec a a); [exact IH|congruence].
Qed.

Lemma includes_unfold (s p : string) :
  Js.includes s p
  = if String.prefix p s then true
    else match s with
         | EmptyString => false
         | String _ s' => Js.includes s' p
         end.
Proof. destruct s; reflexivity. Qed.

Lemma includes_middle (pre p post : string) :
  Js.includes (pre ++ p ++ post) p = true.
Proof.
  induction pre as [|a pre IH].
  - simpl append. rewrite includes_unfold. now rewrite prefix_append.
  - rewrite includes_unfold. destruct (String.prefix _ _); [reflexivity|].
    exact IH.
Qed.

Lemma closes_false_head (c : ascii) (r : string) :
  UrlRegex.closes (String c r) = false -> Ascii.eqb c ")" = false.
Proof.
  unfold UrlRegex.closes. destruct (UrlRegex.isQuote c) eqn:Q; [|auto].
  intros _. unfold UrlRegex.isQuote in Q.
  apply orb_true_iff in Q as [Q|Q]; apply Ascii.eqb_eq in Q; subst; reflexivity.
Qed.

Lemma lazyGroup_sound (r g : string) :
  UrlRegex.lazyGroup r = Some g ->
  exists post, r = (g ++ post)%string
               /\ UrlRegex.closes post = true
               /\ forallb groupChar (list_ascii_of_string g) = true.
Proof.
  revert g; induction r as [|c r IH]; intros g; [discriminate|].
  cbn [UrlRegex.lazyGroup].
  destruct (UrlRegex.closes (String c r)) eqn:Hc.
  - intros [= <-]. exists (String c r). auto.
  - destruct (UrlRegex.isLineTerminator c) eqn:Hl; [discriminate|].
    destruct (UrlRegex.lazyGroup r) as [g'|]; [|discriminate].
    intros [= <-]. destruct (IH g' eq_refl) as (post & -> & Hpost & Hg).
    exists post. split; [reflexivity|]. split; [exact Hpost|].
    simpl. rewrite Hg. unfold groupChar.
    now rewrite (closes_false_head c _ Hc), Hl.
Qed.

Lemma afterParen_sound (r g : string) :
  UrlRegex.afterParen r = Some g ->
  exists q post,
    r = (q ++ g ++ post)%string
    /\ (q = "" \/ exists c, UrlRegex.isQuote c = true /\ q = String c "")
    /\ UrlRegex.closes post = true
    /\ forallb groupChar (list_ascii_of_string g) = true.
Proof.
  assert (Hplain : UrlRegex.lazyGroup r = Some g ->
                   exists q post,
                     r = (q ++ g ++ post)%string
                     /\ (q = "" \/ exists c, UrlRegex.isQuote c = true
                                              /\ q = String c "")
                     /\ UrlRegex.closes post = true
                     /\ forallb groupChar (list_ascii_of_string g) = true).
  { intros H. apply lazyGroup_sound in H as (post & -> & H1 & H2).
    exists "", post. auto. }
  destruct r as [|c r]; [exact Hplain|].
  unfold UrlRegex.afterParen.
  destruct (UrlRegex.isQuote c) eqn:Q; [|exact Hplain].
  destruct (UrlRegex.lazyGroup r) as [g'|] eqn:Hg; [|exact Hplain].
  intros [= <-]. apply lazyGroup_sound in Hg as (post & -> & H1 & H2).
  exists (String c ""), post.
  split; [reflexivity|]. split; [right; exists c; auto|]. auto.
Qed.

Lemma prefix_url_drop4 (s : string) :
  String.prefix "url(" s = true -> s = ("url(" ++ UrlRegex.drop4 s)%string.
Proof.
  intros H. apply prefix_split in H as [t ->]. reflexivity.
Qed.

Lemma urlMatch_parts (s g : string) :
  UrlRegex.urlMatch s = Some g ->
  exists pre q post,
    s = (pre ++ "url(" ++ q ++ g ++ post)%string
    /\ (q = "" \/ exists c, UrlRegex.isQuote c = true /\ q = String c "")
    /\ UrlRegex.closes post = true
    /\ forallb groupChar (list_ascii_of_string g) = true.
Proof.
  induction s as [|c s IH].
  - discriminate.
  - cbn [UrlRegex.urlMatch]. cbv zeta.
    destruct (String.prefix "url(" (String c s)) eqn:Hp.
    + destruct (UrlRegex.afterParen (UrlRegex.drop4 (String c s))) as [g'|] eqn:Ha.
      * intros [= <-].
        apply afterParen_sound in Ha as (q & post & Hr & Hq & Hpost & Hg).
        exists "", q, post. split; [|auto].
        rewrite (prefix_url_drop4 _ Hp) at 1. now rewrite Hr.
      * intros H. destruct (IH H) as (pre & q & post & -> & Hrest).
        exists (String c pre), q, post. auto.
    + intros H. destruct (IH H) as (pre & q & post & -> & Hrest).
      exists (String c pre), q, post. auto.
Qed.

(** X6. When the pattern matches, its group is the text that stands in the
    input between [url(], with an optional quote after it, and a closing
    parenthesis, with an optional quote before it; the group holds no closing
    parenthesis and no line terminator. *)
Theorem urlMatch_sound (s g : string) :
  UrlRegex.urlMatch s = Some g ->
  exists pre q post,
    s = (pre ++ "url(" ++ q ++ g ++ post)%string
    /\ (q = "" \/ exists c, UrlRegex.isQuote c = true /\ q = String c "")
    /\ UrlRegex.closes post = true
    /\ forallb groupChar (list_ascii_of_string g) = true.
Proof. apply urlMatch_parts. Qed.

Lemma urlMatch_sound_witness :
  exists pre q post,
    "linear-gradient(red, blue), url('http://example.com/x.png') no-repeat"
    = (pre ++ "url(" ++ q ++ "http://example.com/x.png" ++ post)%string
    /\ (q = "" \/ exists c, UrlRegex.isQuote c = true /\ q = String c "")
    /\ UrlRegex.closes post = true
    /\ forallb groupChar (list_ascii_of_string "http://example.com/x.png") = true.
Proof. apply urlMatch_sound. reflexivity. Defined.

Lemma lazyGroup_quoted (u : string) (q : ascii) :
  UrlRegex.isQuote q = true ->
  forallb groupChar (list_ascii_of_string u) = true ->
  UrlRegex.lazyGroup (u ++ String q ")") = Some u.
Proof.
  intros Hq. assert (Hq' : Ascii.eqb q ")" = false).
  { unfold UrlRegex.isQuote in Hq.
    apply orb_true_iff in Hq as [Q|Q]; apply Ascii.eqb_eq in Q; subst;
      reflexivity. }
  induction u as [|c u IH]; intros Hu.
  - simpl. now rewrite Hq.
  - simpl in Hu. apply andb_true_iff in Hu as [Hc Hu].
    unfold groupChar in Hc. apply andb_true_iff in Hc as [Hc1 Hc2].
    apply negb_true_iff in Hc1, Hc2.
    simpl append. cbn [UrlRegex.lazyGroup].
    assert (Hcl : UrlRegex.closes (String c (u ++ String q ")")) = false).
    { unfold UrlRegex.closes. destruct (UrlRegex.isQuote c); [|exact Hc1].
      destruct u as [|d u]; simpl; [exact Hq'|].
      simpl in Hu. apply andb_true_iff in Hu as [Hd _].
      unfold groupChar in Hd. apply andb_true_iff in Hd as [Hd _].
      now apply negb_true_iff in Hd. }
    rewrite Hcl, Hc2, (IH Hu). reflexivity.
Qed.

Lemma urlMatch_here (s g : string) :
  String.prefix "url(" s = true ->
  UrlRegex.afterParen (UrlRegex.drop4 s) = Some g ->
  UrlRegex.urlMatch s = Some g.
Proof.
  intros Hp Ha. destruct s as [|c s]; [discriminate|].
  cbn [UrlRegex.urlMatch]. cbv zeta. now rewrite Hp, Ha.
Qed.

Lemma urlMatch_between_quotes (u : string) (q : ascii) :
  UrlRegex.isQuote q = true ->
  forallb groupChar (list_ascii_of_string u) = true ->
  UrlRegex.urlMatch ("url(" ++ String q (u ++ String q ")")) = Some u.
Proof.
  intros Hq Hu. apply urlMatch_here; [apply prefix_append|].
  change (UrlRegex.drop4 ("url(" ++ String q (u ++ String q ")")))
    with (String q (u ++ String q ")")).
  unfold UrlRegex.afterParen. now rewrite Hq, lazyGroup_quoted.
Qed.

(** X7. A URL without closing parenthesis and line terminator, written
    between quotes inside [url(...)], is what the pattern captures. *)
Theorem urlMatch_quoted_roundtrip (u : string) (q : ascii) :
  UrlRegex.isQuote q = true ->
  forallb groupChar (list_ascii_of_string u) = true ->
  UrlRegex.urlMatch ("url(" ++ String q (u ++ String q ")")) = Some u.
Proof. apply urlMatch_between_quotes. Qed.

Lemma urlMatch_quoted_roundtrip_witness :
  UrlRegex.urlMatch
    ("url(" ++ String "034" ("http://example.com/it's.png" ++ String "034" ")"))
  = Some "http://example.com/it's.png".
Proof. apply urlMatch_quoted_roundtrip; reflexivity. Defined.

(** ** What Method 2 finds *)

Lemma forEach_from_nth {A B} (f : A -> nat -> list B) (l : list A)
      (i k : nat) (a : A) (b : B) :
  nth_error l k = Some a -> In b (f a (i + k)%nat) ->
  In b (Js.forEach_from f i l).
Proof.
  revert i k; induction l as [|x t IH]; intros i k Hn Hb.
  - destruct k; discriminate.
  - destruct k as [|k]; simpl in Hn |- *; apply in_or_app.
    + injection Hn as ->. rewrite Nat.add_0_r in Hb. now left.
    + right. apply (IH (S i) k); [exact Hn|].
      now replace (S i + k)%nat with (i + S k)%nat by lia.
Qed.

Lemma startsWith_nonEmpty (s p : string) :
  nonEmpty p = true -> Js.startsWith s p = true -> nonEmpty s = true.
Proof.
  intros Hp H. apply prefix_split in H as [t ->].
  destruct p; [discriminate|reflexivity].
Qed.

(** X8. The [k]-th element of the document whose computed background image
    is an http URL between double quotes inside [url(...)], the URL holding
    no closing parenthesis and no line terminator, gives a background-image
    candidate with that URL, the alt [background-k] and the tag name. *)
Theorem background_url_is_candidate
        (doc : Dom.node) (k : nat) (e : Dom.elem) (u : string) :
  nth_error (Dom.select_all doc) k = Some e ->
  Dom.backgroundImage e = Sample.cssUrl u ->
  forallb groupChar (list_ascii_of_string u) = true ->
  Js.startsWith u "http" = true ->
  In {| src := u; alt := Js.withIndex "background-" k;
        type := "background-image"; element := Some (Dom.tagName e);
        width := 0; height := 0 |}
     (method2 doc).
Proof.
  intros Hk Hbg Hu Hhttp. unfold method2, Js.forEach.
  apply (forEach_from_nth _ _ 0%nat k e); [exact Hk|].
  cbv zeta. rewrite Hbg.
  assert (H1 : nonEmpty (Sample.cssUrl u) = true) by reflexivity.
  assert (H2 : String.eqb (Sample.cssUrl u) "none" = false) by reflexivity.
  assert (H3 : Js.includes (Sample.cssUrl u) "url(" = true).
  { rewrite includes_unfold. unfold Sample.cssUrl. now rewrite prefix_append. }
  rewrite H1, H2, H3. simpl andb. cbv iota.
  unfold Sample.cssUrl.
  rewrite (urlMatch_between_quotes u "034" eq_refl Hu).
  rewrite (startsWith_nonEmpty u "http" eq_refl Hhttp), Hhttp.
  left. reflexivity.
Qed.

Lemma background_url_is_candidate_witness :
  In {| src := "http://example.com/icon.png"; alt := "background-3";
        type := "background-image"; element := Some "DIV";
        width := 0; height := 0 |}
     (method2 Sample.iconPage).
Proof.
  apply (background_url_is_candidate Sample.iconPage 3
           (Sample.div (Sample.cssUrl "http://example.com/icon.png") None));
    reflexivity.
Defined.

(** ** A page without http *)

Lemma startsWith_includes (s p : string) :
  Js.startsWith s p = true -> Js.includes s p = true.
Proof. intros H. rewrite includes_unfold. unfold Js.startsWith in H. now rewrite H. Qed.

Lemma urlMatch_includes (s g p : string) :
  UrlRegex.urlMatch s = Some g -> Js.startsWith g p = true ->
  Js.includes s p = true.
Proof.
  intros Hm Hp. apply urlMatch_parts in Hm as (pre & q & post & -> & _).
  apply prefix_split in Hp as [t ->].
  replace (pre ++ "url(" ++ q ++ (p ++ t) ++ post)%string
    with ((pre ++ "url(" ++ q) ++ p ++ (t ++ post))%string.
  - apply includes_middle.
  - now rewrite !append_assoc_s.
Qed.

Lemma or_hasHttp (a b : option string) (s : string) :
  Js.or a b = Some s -> Js.includes s "http" = true ->
  hasHttp a = true \/ hasHttp b = true.
Proof.
  unfold Js.or. destruct (Js.truthy a); intros H Hs; subst; simpl; auto.
Qed.

Lemma hasHttp_or (a b : option string) :
  hasHttp (Js.or a b) = true -> hasHttp a = true \/ hasHttp b = true.
Proof. unfold Js.or. destruct (Js.truthy a); auto. Qed.

Lemma select_img_all doc e : In e (Dom.select_img doc) -> In e (Dom.select_all doc).
Proof.
  unfold Dom.select_img, Dom.select_all. rewrite !in_map_iff.
  intros (p & Hp & Hin). apply filter_In in Hin as [Hin _]. eauto.
Qed.

Lemma select_picture_all doc e :
  In e (Dom.select_picture doc) -> In e (Dom.select_all doc).
Proof.
  unfold Dom.select_picture, Dom.select_all. rewrite !in_map_iff.
  intros (p & Hp & Hin). apply filter_In in Hin as [Hin _]. eauto.
Qed.

Lemma select_lazy_all doc e : In e (Dom.select_lazy doc) -> In e (Dom.select_all doc).
Proof.
  unfold Dom.select_lazy, Dom.select_all. rewrite !in_map_iff.
  intros (p & Hp & Hin). apply filter_In in Hin as [Hin _]. eauto.
Qed.

(** Every candidate comes from an element that mentions http. *)
Lemma candidate_mentions_http (doc : Dom.node) (c : image) :
  In c (method1 doc ++ method2 doc ++ method3 doc ++ method4 doc) ->
  exists e, In e (Dom.select_all doc) /\ mentionsHttp e = true.
Proof.
  intros H. unfold mentionsHttp.
  repeat (apply in_app_or in H as [H|H]);
    apply forEach_from_In in H as (e & k & He & H); exists e.
  - split; [now apply select_img_all|].
    destruct (Dom.src e) as [s|]; [|contradiction].
    destruct (nonEmpty s && Js.startsWith s "http") eqn:G; [|contradiction].
    apply andb_true_iff in G as [_ G]. simpl.
    now rewrite (startsWith_includes _ _ G).
  - split; [exact He|]. cbv zeta in H.
    destruct (_ && Js.includes _ _); [|contradiction].
    destruct (UrlRegex.urlMatch _) as [u|] eqn:Hm; [|contradiction].
    destruct (nonEmpty u && Js.startsWith u "http") eqn:G; [|contradiction].
    apply andb_true_iff in G as [_ G].
    rewrite (urlMatch_includes _ _ _ Hm G). now rewrite !orb_true_r.
  - split; [now apply select_picture_all|].
    destruct (Js.or _ _) as [s|] eqn:Ho; [|contradiction].
    destruct (nonEmpty s && Js.includes s "http") eqn:G; [|contradiction].
    apply andb_true_iff in G as [_ G].
    destruct (or_hasHttp _ _ _ Ho G) as [E|E]; rewrite E;
      now rewrite ?orb_true_r.
  - split; [now apply select_lazy_all|]. cbv zeta in H.
    destruct (Js.or _ _) as [s|] eqn:Ho; [|contradiction].
    destruct (nonEmpty s && Js.startsWith s "http") eqn:G; [|contradiction].
    apply andb_true_iff in G as [_ G]. apply startsWith_includes in G.
    assert (Hh : hasHttp
                   (Js.or (Dom.data_src e)
                      (Js.or (Dom.data_lazy_src e)
                         (Js.or (Dom.data_original e)
                            (Js.or (Dom.data_image e) (Dom.data_bg e)))))
                 = true) by now rewrite Ho.
    apply hasHttp_or in Hh as [Hh|Hh]; [now rewrite Hh, ?orb_true_r|].
    apply hasHttp_or in Hh as [Hh|Hh]; [now rewrite Hh, ?orb_true_r|].
    apply hasHttp_or in Hh as [Hh|Hh]; [now rewrite Hh, ?orb_true_r|].
    apply hasHttp_or in Hh as [Hh|Hh]; now rewrite Hh, ?orb_true_r.
Qed.

(** X9. On a document none of whose elements has http in its [src],
    [srcset], computed background image or lazy data attributes, the script
    returns the empty array; the response, when [url] is truthy and can be
    converted to a string and every call resolves, is then the 200 response
    with [images: []] and [count: 0]. *)
Theorem page_without_http_has_no_images (body : list (string * json))
        (e : env) (s : rstate) :
  (forall x, In x (Dom.select_all (document e)) -> mentionsHttp x = false) ->
  extractImages (document e) = []
  /\ (truthy (getProp "url" body) = true ->
      printableUrl (getProp "url" body) = true ->
      (forall k, rejects e k = None) ->
      exists u,
        getProp "url" body = Some u
        /\ fst (postExtractImages body e s)
           = Resp 200 (JObj [("success", JBool true); ("images", JArr []);
                             ("count", JNum 0); ("url", u)])).
Proof.
  intros Hno.
  assert (Hnil : extractImages (document e) = []).
  { destruct (extractImages (document e)) as [|c l] eqn:E; [reflexivity|].
    exfalso.
    assert (Hc : In c (extractImages (document e))) by (rewrite E; now left).
    apply uniqueImages_In in Hc as [Hc _].
    apply candidate_mentions_http in Hc as (x & Hx & Hm).
    rewrite (Hno x Hx) in Hm. discriminate. }
  split; [exact Hnil|].
  intros Ht Hp Hres. rewrite (post_all_resolve body e s Ht Hp Hres). simpl fst.
  rewrite Hnil. destruct (getProp "url" body) as [u|]; [|discriminate].
  exists u. split; reflexivity.
Qed.

Lemma page_without_http_has_no_images_witness :
  let doc := Sample.page [Dom.Node (Sample.plain "P") []] in
  extractImages doc = []
  /\ fst (postExtractImages (Run.urlBody "http://example.com")
                            (Run.smooth doc) initial)
     = Resp 200 (JObj [("success", JBool true); ("images", JArr []);
                       ("count", JNum 0);
                       ("url", JStr "http://example.com")]).
Proof.
  intros doc.
  destruct (page_without_http_has_no_images
              (Run.urlBody "http://example.com") (Run.smooth doc) initial)
    as [Hnil Hresp].
  - intros x Hx. vm_compute in Hx.
    repeat (destruct Hx as [<-|Hx]; [reflexivity|]). contradiction.
  - split; [exact Hnil|].
    destruct (Hresp eq_refl eq_refl (fun _ => eq_refl)) as (u & Hu & Hr).
    injection Hu as <-. exact Hr.
Defined.

(** ** The source chosen by Method 3 *)

Lemma rev_string_chars (acc s : string) :
  list_ascii_of_string (Js.rev_string acc s)
  = (rev (list_ascii_of_string s) ++ list_ascii_of_string acc)%list.
Proof.
  revert acc; induction s as [|c s IH]; intros acc; simpl; [reflexivity|].
  rewrite IH. simpl. now rewrite <- app_assoc.
Qed.

Lemma trimStart_chars (s : string) (x : ascii) :
  In x (list_ascii_of_string (Js.trimStart s)) -> In x (list_ascii_of_string s).
Proof.
  induction s as [|c s IH]; simpl; [auto|].
  destruct (Js.isWhite c); simpl; auto.
Qed.

Lemma trim_chars (s : string) (x : ascii) :
  In x (list_ascii_of_string (Js.trim s)) -> In x (list_ascii_of_string s).
Proof.
  unfold Js.trim. rewrite rev_string_chars. simpl. rewrite app_nil_r.
  intros H. apply in_rev in H. apply trimStart_chars in H.
  rewrite rev_string_chars in H. simpl in H. rewrite app_nil_r in H.
  apply in_rev in H. now apply trimStart_chars.
Qed.

(** A character of a part of [split] comes from the string and is not the
    separator. *)
Lemma split_go_chars (sep : ascii) (s cur part : string) (x : ascii) :
  In part (Js.split_go sep cur s) ->
  In x (list_ascii_of_string part) ->
  In x (list_ascii_of_string cur)
  \/ (In x (list_ascii_of_string s) /\ x <> sep).
Proof.
  revert cur; induction s as [|c s IH]; intros cur Hp Hx.
  - simpl in Hp. destruct Hp as [<-|[]].
    rewrite rev_string_chars in Hx. simpl in Hx. rewrite app_nil_r in Hx.
    left. now apply in_rev.
  - simpl in Hp. destruct (Ascii.eqb_spec c sep) as [->|Hne].
    + destruct Hp as [<-|Hp].
      * rewrite rev_string_chars in Hx. simpl in Hx. rewrite app_nil_r in Hx.
        left. now apply in_rev.
      * destruct (IH "" Hp Hx) as [[]|[H1 H2]]. right. simpl. auto.
    + destruct (IH _ Hp Hx) as [H|[H1 H2]].
      * simpl in H. destruct H as [<-|H]; [right; simpl; auto | now left].
      * right. simpl. auto.
Qed.

Lemma split_chars (sep : ascii) (s part : string) (x : ascii) :
  In part (Js.split s sep) -> In x (list_ascii_of_string part) ->
  In x (list_ascii_of_string s) /\ x <> sep.
Proof.
  intros Hp Hx. destruct (split_go_chars sep s "" part x Hp Hx) as [[]|H].
  exact H.
Qed.

Lemma split_first_In (sep : ascii) (s : string) :
  In (Js.first (Js.split s sep)) (Js.split s sep).
Proof.
  unfold Js.first, Js.split.
  assert (H : forall cur d, In (hd d (Js.split_go sep cur s))
                               (Js.split_go sep cur s)).
  { induction s as [|c s IH]; intros cur d.
    - left. reflexivity.
    - simpl. destruct (Ascii.eqb c sep); [now left|apply IH]. }
  apply H.
Qed.

Lemma method3_src_chars doc c x :
  In c (method3 doc) -> In x (list_ascii_of_string (src c)) ->
  x <> ","%char /\ x <> " "%char.
Proof.
  intros H Hx. apply forEach_from_In in H as (e & k & _ & H).
  destruct (Js.or _ _) as [s|]; [|contradiction].
  destruct (nonEmpty s && Js.includes s "http"); [|contradiction].
  cbv zeta in H. destruct (0 <? _) eqn:G; [|contradiction].
  destruct H as [<-|[]]. cbn [src] in Hx.
  match type of Hx with
  | In x (list_ascii_of_string (nth _ ?l _)) =>
      assert (Hin : In (nth (List.length l - 1) l "") l)
  end.
  { apply nth_In. destruct (List.filter _ _); [discriminate|simpl; lia]. }
  apply filter_In in Hin as [Hin _].
  apply in_map_iff in Hin as (part & Hpart & Hin).
  rewrite <- Hpart in Hx.
  destruct (split_chars " " (Js.trim part) _ x (split_first_In _ _) Hx)
    as [Hx1 Hsp].
  apply trim_chars in Hx1.
  destruct (split_chars "," s part x Hin Hx1) as [_ Hco]. auto.
Qed.

(** X10. The source of a returned picture-element entry holds no comma and
    no space: it is one whole URL of the [srcset] list, without its
    descriptor. *)
Theorem picture_source_is_one_url (doc : Dom.node) (c : image) (x : ascii) :
  In c (extractImages doc) -> type c = "picture-element" ->
  In x (list_ascii_of_string (src c)) ->
  x <> ","%char /\ x <> " "%char.
Proof.
  intros H Ht Hx. apply uniqueImages_In in H as [H _].
  repeat (apply in_app_or in H as [H|H]).
  - apply method1_shape in H as (E & _). rewrite E in Ht. discriminate.
  - apply method2_shape in H as (E & _). rewrite E in Ht. discriminate.
  - exact (method3_src_chars doc c x H Hx).
  - apply method4_shape in H as (E & _). rewrite E in Ht. discriminate.
Qed.

Example picture_page_result :
  map (fun c => (type c, src c)) (extractImages picturePage)
  = [("img-tag", "http://example.com/a.jpg");
     ("picture-element", "http://example.com/b.webp")].
Proof. reflexivity. Qed.

Lemma picture_source_is_one_url_witness :
  "h"%char <> ","%char /\ "h"%char <> " "%char.
Proof.
  apply (picture_source_is_one_url picturePage
           {| src := "http://example.com/b.webp"; alt := "picture-0";
              type := "picture-element"; element := None;
              width := 0; height := 0 |}).
  - right. left. reflexivity.
  - reflexivity.
  - left. reflexivity.
Defined.

(** * Further properties of the handlers *)

(** ** The outcome of an extraction request *)

(** Among the next [len] calls either all resolve or one is the first to
    reject. *)
Lemma first_reject (e : env) (base len : nat) :
  (forall k, (k < len)%nat -> rejects e (base + k) = None)
  \/ exists n msg, (n < len)%nat
                   /\ rejects e (base + n) = Some msg
                   /\ forall k, (k < n)%nat -> rejects e (base + k) = None.
Proof.
  induction len as [|len IH].
  - left. intros k Hk. lia.
  - destruct IH as [IH|IH].
    + destruct (rejects e (base + len)) as [msg|] eqn:E.
      * right. exists len, msg. auto.
      * left. intros k Hk.
        destruct (Nat.eq_dec k len) as [->|]; [exact E|apply IH; lia].
    + right. destruct IH as (n & msg & Hn & H1 & H2).
      exists n, msg. auto.
Qed.

(** The state in which the [try] block throws. *)
Lemma tryExtract_throw_state url e s (n : nat) (msg : string) :
  printableUrl url = true ->
  (n < List.length (handlerCalls (browser s) url (innerHeight e)))%nat ->
  rejects e (List.length (log s) + n) = Some msg ->
  (forall k, (k < n)%nat -> rejects e (List.length (log s) + k) = None) ->
  tryExtract url e s
  = (Throw msg,
     {| browser := match browser s, n with
                   | None, O => None
                   | _, _ => Some Browser
                   end;
        log := log s ++ firstn (S n)
                          (handlerCalls (browser s) url (innerHeight e)) |}).
Proof.
  intros Hp Hn Hrej Hbefore. rewrite tryExtract_awaitAll.
  unfold bind at 1. rewrite (logUrl_ok url e s Hp).
  destruct (browser s) as [[]|] eqn:Hb; unfold bind at 1.
  - rewrite (initBrowser_some e s Browser Hb).
    unfold bind.
    rewrite (awaitAll_throw (pageCalls url (innerHeight e)) e s n msg
                            Hn Hrej Hbefore).
    unfold logged, handlerCalls. now rewrite Hb.
  - rewrite (initBrowser_none e s Hb).
    destruct n as [|n].
    + rewrite Nat.add_0_r in Hrej. rewrite Hrej.
      unfold logged. now rewrite Hb.
    + pose proof (Hbefore 0%nat ltac:(lia)) as H0.
      rewrite Nat.add_0_r in H0. rewrite H0.
      unfold bind. rewrite (awaitAll_throw _ e _ n msg).
      * unfold logged, handlerCalls. cbn [browser log].
        rewrite <- app_assoc. reflexivity.
      * simpl in Hn. simpl. lia.
      * simpl log. rewrite length_app. simpl List.length.
        rewrite <- Hrej. f_equal. lia.
      * intros k Hk. simpl log. rewrite length_app. simpl List.length.
        replace (List.length (log s) + 1 + k)%nat
          with (List.length (log s) + S k)%nat by lia.
        apply Hbefore. lia.
Qed.

Lemma post_cases (body : list (string * json)) (e : env) (s : rstate) :
  let url := getProp "url" body in
  let calls := handlerCalls (browser s) url (innerHeight e) in
  (truthy url = false
   /\ postExtractImages body e s
      = (Resp 400 (JObj [("error", JStr "URL is required")]), s))
  \/ (truthy url = true /\ printableUrl url = false
      /\ postExtractImages body e s
         = (Resp 500 (JObj [("error", JStr "Failed to extract images");
                            ("message", JStr typeErrorMessage)]), s))
  \/ (truthy url = true /\ printableUrl url = true
      /\ (forall k, (k < List.length calls)%nat ->
                    rejects e (List.length (log s) + k) = None)
      /\ postExtractImages body e s
         = (okResponse url (extractImages (document e)),
            {| browser := Some Browser; log := log s ++ calls |}))
  \/ (truthy url = true /\ printableUrl url = true
      /\ exists n msg,
           (n < List.length calls)%nat
           /\ rejects e (List.length (log s) + n) = Some msg
           /\ (forall k, (k < n)%nat ->
                         rejects e (List.length (log s) + k) = None)
           /\ postExtractImages body e s
              = (Resp 500 (JObj [("error", JStr "Failed to extract images");
                                 ("message", JStr msg)]),
                 {| browser := match browser s, n with
                               | None, O => None
                               | _, _ => Some Browser
                               end;
                    log := log s ++ firstn (S n) calls |})).
Proof.
  intros url calls. unfold postExtractImages. fold url.
  destruct (truthy url) eqn:Ht; simpl negb; cbv iota; [|left; auto].
  right. destruct (printableUrl url) eqn:Hp.
  - right.
    destruct (first_reject e (List.length (log s)) (List.length calls))
      as [Hall|(n & msg & Hn & Hrej & Hbefore)].
    + left. split; [reflexivity|]. split; [reflexivity|].
      split; [exact Hall|].
      now rewrite (tryExtract_ok url e s Hp Hall).
    + right. split; [reflexivity|]. split; [reflexivity|]. exists n, msg.
      repeat split; try assumption.
      now rewrite (tryExtract_throw_state url e s n msg Hp Hn Hrej Hbefore).
  - left. split; [reflexivity|]. split; [reflexivity|].
    now rewrite (tryExtract_unprintable url e s Hp).
Qed.

(** X11. An extraction request ends in one of four ways. With a
    falsy [url]: 400, nothing done. With a [url] that cannot be converted
    to a string: 500 with the TypeError message, nothing done. With every
    call resolving: the 200 response, after all the calls of the handler,
    the browser handle kept. With a first rejection at call [n]: 500 with
    its message, after the calls up to that one, the browser handle kept
    unless it was the launch that rejected. *)
Theorem post_outcome (body : list (string * json)) (e : env) (s : rstate) :
  let url := getProp "url" body in
  let calls := handlerCalls (browser s) url (innerHeight e) in
  (truthy url = false
   /\ postExtractImages body e s
      = (Resp 400 (JObj [("error", JStr "URL is required")]), s))
  \/ (truthy url = true /\ printableUrl url = false
      /\ postExtractImages body e s
         = (Resp 500 (JObj [("error", JStr "Failed to extract images");
                            ("message", JStr typeErrorMessage)]), s))
  \/ (truthy url = true /\ printableUrl url = true
      /\ (forall k, (k < List.length calls)%nat ->
                    rejects e (List.length (log s) + k) = None)
      /\ postExtractImages body e s
         = (okResponse url (extractImages (document e)),
            {| browser := Some Browser; log := log s ++ calls |}))
  \/ (truthy url = true /\ printableUrl url = true
      /\ exists n msg,
           (n < List.length calls)%nat
           /\ rejects e (List.length (log s) + n) = Some msg
           /\ (forall k, (k < n)%nat ->
                         rejects e (List.length (log s) + k) = None)
           /\ postExtractImages body e s
              = (Resp 500 (JObj [("error", JStr "Failed to extract images");
                                 ("message", JStr msg)]),
                 {| browser := match browser s, n with
                               | None, O => None
                               | _, _ => Some Browser
                               end;
                    log := log s ++ firstn (S n) calls |})).
Proof. apply post_cases. Qed.

(** X12. A 200 response is sent only after every call of the handler has
    been made, in order: the page has been opened, the script run and the
    page closed; the browser handle is stored. *)
Theorem ok_response_after_all_calls body e s b s' :
  postExtractImages body e s = (Resp 200 b, s') ->
  s' = {| browser := Some Browser;
          log := log s ++ handlerCalls (browser s) (getProp "url" body)
                                       (innerHeight e) |}.
Proof.
  intros H.
  destruct (post_cases body e s)
    as [(_ & E)|[(_ & _ & E)|[(_ & _ & _ & E)
                              |(_ & _ & n & msg & _ & _ & _ & E)]]];
    rewrite E in H; try discriminate.
  injection H as _ <-. reflexivity.
Qed.

Lemma ok_response_after_all_calls_witness :
  snd (postExtractImages (Run.urlBody "http://example.com")
                         (Run.smooth Sample.logoPage) initial)
  = {| browser := Some Browser;
       log := handlerCalls None (Some (JStr "http://example.com")) 800 |}.
Proof.
  apply (ok_response_after_all_calls
           (Run.urlBody "http://example.com") (Run.smooth Sample.logoPage)
           initial
           (JObj [("success", JBool true);
                  ("images",
                   JArr (map image_to_json (extractImages Sample.logoPage)));
                  ("count", JNum 1);
                  ("url", JStr "http://example.com")])).
  vm_compute. reflexivity.
Defined.

(** ** The calls of a request *)

Lemma callsOf_post body e s :
  exists k,
    callsOf (PostExtractImages body) e s
    = firstn k (handlerCalls (browser s) (getProp "url" body) (innerHeight e)).
Proof.
  unfold callsOf. cbn [serve].
  destruct (post_cases body e (fresh s))
    as [(_ & E)|[(_ & _ & E)|[(_ & _ & _ & E)
                              |(_ & _ & n & msg & _ & _ & _ & E)]]];
    rewrite E.
  - exists 0%nat. reflexivity.
  - exists 0%nat. reflexivity.
  - exists (List.length (handlerCalls (browser s) (getProp "url" body)
                                      (innerHeight e))).
    cbn [snd log fresh browser app]. now rewrite firstn_all.
  - exists (S n). reflexivity.
Qed.

(** X13. Whatever rejects, the calls of a request are an initial segment of
    one fixed sequence: the launch if there is no browser yet, then newPage,
    setUserAgent, goto with networkidle2 and a 30000 ms timeout, a 3000 ms
    wait, the thirteen calls of the scroll helper, the extraction script
    and page.close. The health check and the main page call nothing. *)
Theorem calls_follow_fixed_sequence (req : request) (e : env) (s : rstate) :
  match req with
  | PostExtractImages body =>
      exists k,
        callsOf req e s
        = firstn k
            (match browser s with
             | None => [Launch true launchArgs]
             | Some _ => []
             end
             ++ [NewPage; SetUserAgent userAgent;
                 Goto (getProp "url" body) "networkidle2" 30000;
                 WaitForTimeout 3000]
             ++ scrollCalls (innerHeight e)
             ++ [EvalExtract; ClosePage])
  | GetHealth | GetRoot => callsOf req e s = []
  end.
Proof.
  destruct req as [body| |]; [|reflexivity|reflexivity].
  destruct (callsOf_post body e s) as [k Hk]. exists k. rewrite Hk.
  destruct (browser s); reflexivity.
Qed.

(** ** Lists of calls *)

Lemma In_firstn {A} (x : A) (k : nat) (l : list A) :
  In x (firstn k l) -> In x l.
Proof.
  revert k; induction l as [|a l IH]; intros [|k]; simpl; try tauto.
  intros [H|H]; auto. right. now apply (IH k).
Qed.

Lemma pageCalls_no_launch url vh h a : ~ In (Launch h a) (pageCalls url vh).
Proof.
  unfold pageCalls, scrollCalls. simpl. intros H.
  repeat (destruct H as [H|H]; [discriminate|]). contradiction.
Qed.

(** ** The page of a failed request, and when the script runs *)

Lemma handlerCalls_split b url vh :
  handlerCalls b url vh
  = (callsBeforeExtract b url vh ++ [EvalExtract; ClosePage])%list.
Proof. destruct b; reflexivity. Qed.

Lemma callsBeforeExtract_plain b url vh :
  ~ In EvalExtract (callsBeforeExtract b url vh)
  /\ ~ In ClosePage (callsBeforeExtract b url vh).
Proof.
  split; intros H; destruct b; simpl in H;
    repeat (destruct H as [H|H]; [discriminate|]); contradiction.
Qed.

Lemma callsOf_throw body e s (n : nat) (msg : string) :
  truthy (getProp "url" body) = true ->
  printableUrl (getProp "url" body) = true ->
  (n < List.length (handlerCalls (browser s) (getProp "url" body)
                                 (innerHeight e)))%nat ->
  rejects e n = Some msg ->
  (forall k, (k < n)%nat -> rejects e k = None) ->
  callsOf (PostExtractImages body) e s
  = firstn (S n) (handlerCalls (browser s) (getProp "url" body) (innerHeight e)).
Proof.
  intros Ht Hp Hn Hrej Hbefore. unfold callsOf. cbn [serve].
  unfold postExtractImages. rewrite Ht. simpl negb. cbv iota.
  rewrite (tryExtract_throw_state _ e (fresh s) n msg); auto.
Qed.

(** X15. For a truthy [url] that can be converted to a string: when the
    first call to reject comes after newPage has resolved and is not
    page.close itself, the request has opened a page and never calls
    page.close: the catch block answers 500 and leaves the page open. *)
Theorem failed_request_leaves_page_open body e s (n : nat) (msg : string) :
  truthy (getProp "url" body) = true ->
  printableUrl (getProp "url" body) = true ->
  (match browser s with None => 1 | Some _ => 0 end < n)%nat ->
  (S n < List.length (handlerCalls (browser s) (getProp "url" body)
                                   (innerHeight e)))%nat ->
  rejects e n = Some msg ->
  (forall k, (k < n)%nat -> rejects e k = None) ->
  In NewPage (callsOf (PostExtractImages body) e s)
  /\ ~ In ClosePage (callsOf (PostExtractImages body) e s).
Proof.
  intros Ht Hp Hlow Hhigh Hrej Hbefore.
  rewrite (callsOf_throw body e s n msg Ht Hp ltac:(lia) Hrej Hbefore).
  split.
  - destruct (browser s); cbn [handlerCalls pageCalls app].
    + simpl. now left.
    + destruct n as [|n]; [lia|]. simpl. auto.
  - rewrite handlerCalls_split in Hhigh |- *.
    rewrite length_app in Hhigh. simpl in Hhigh.
    rewrite firstn_app. intros H. apply in_app_or in H as [H|H].
    + apply In_firstn in H. now apply callsBeforeExtract_plain in H.
    + destruct (S n - List.length (callsBeforeExtract (browser s)
                                     (getProp "url" body) (innerHeight e)))%nat
        as [|[|k]] eqn:E; [contradiction| |lia].
      simpl in H. destruct H as [H|[]]. discriminate.
Qed.

Lemma failed_request_leaves_page_open_witness :
  let req := PostExtractImages (Run.urlBody "http://nowhere.invalid") in
  let e := Run.failing 3 "net::ERR_NAME_NOT_RESOLVED" Sample.logoPage in
  In NewPage (callsOf req e initial) /\ ~ In ClosePage (callsOf req e initial).
Proof.
  apply (failed_request_leaves_page_open _ _ _ 3 "net::ERR_NAME_NOT_RESOLVED").
  - reflexivity.
  - reflexivity.
  - simpl. lia.
  - simpl. lia.
  - reflexivity.
  - intros k Hk. simpl.
    destruct k as [|[|[|k]]]; [reflexivity|reflexivity|reflexivity|lia].
Defined.

(** X16. The extraction script is evaluated at most once per request, and
    only after the launch (if needed), newPage, setUserAgent, goto, the
    3000 ms wait and all thirteen calls of the scroll helper. *)
Theorem script_runs_after_scroll body e s :
  In EvalExtract (callsOf (PostExtractImages body) e s) ->
  exists rest,
    callsOf (PostExtractImages body) e s
    = (callsBeforeExtract (browser s) (getProp "url" body) (innerHeight e)
       ++ EvalExtract :: rest)%list
    /\ ~ In EvalExtract rest.
Proof.
  destruct (callsOf_post body e s) as [k ->].
  rewrite handlerCalls_split, firstn_app.
  set (front := callsBeforeExtract (browser s) (getProp "url" body)
                                   (innerHeight e)).
  intros H. apply in_app_or in H as [H|H].
  - apply In_firstn in H. now apply callsBeforeExtract_plain in H.
  - destruct (k - List.length front)%nat as [|j] eqn:E; [contradiction|].
    rewrite firstn_all2 by lia.
    exists (firstn j [ClosePage]). split; [reflexivity|].
    intros F. apply In_firstn in F. destruct F as [F|[]]. discriminate.
Qed.

Lemma script_runs_after_scroll_witness :
  exists rest,
    callsOf (PostExtractImages (Run.urlBody "http://example.com"))
            (Run.smooth Sample.logoPage) initial
    = (callsBeforeExtract None (Some (JStr "http://example.com")) 800
       ++ EvalExtract :: rest)%list
    /\ ~ In EvalExtract rest.
Proof.
  apply (script_runs_after_scroll (Run.urlBody "http://example.com")
           (Run.smooth Sample.logoPage) initial).
  vm_compute. intuition.
Defined.

(** ** Entries of img tags come first *)

Lemma keep_app (pre a b : list image) :
  keep pre (a ++ b) = (keep pre a ++ keep (pre ++ a) b)%list.
Proof.
  revert pre; induction a as [|x a IH]; intros pre.
  - simpl. now rewrite app_nil_r.
  - cbn [keep app]. rewrite IH, <- app_assoc. simpl.
    destruct (negb _ && negb _); reflexivity.
Qed.

Lemma keep_incl (pre l : list image) (c : image) : In c (keep pre l) -> In c l.
Proof.
  revert pre; induction l as [|x t IH]; intros pre; cbn [keep]; [auto|].
  destruct (negb _ && negb _); simpl; intros H.
  - destruct H as [H|H]; [auto|right; eapply IH; eauto].
  - right; eapply IH; eauto.
Qed.

(** X18. The returned array begins with what the script would return for
    the img tags alone; the entries after that are from the other three
    methods. *)
Theorem img_tag_entries_come_first (doc : Dom.node) :
  exists rest,
    extractImages doc = (uniqueImages (method1 doc) ++ rest)%list
    /\ forall c, In c rest ->
                 In c (method2 doc ++ method3 doc ++ method4 doc)
                 /\ type c <> "img-tag".
Proof.
  exists (keep (method1 doc) (method2 doc ++ method3 doc ++ method4 doc)).
  split.
  - unfold extractImages. rewrite !uniqueImages_keep. apply keep_app.
  - intros c Hc. apply keep_incl in Hc. split; [exact Hc|].
    repeat (apply in_app_or in Hc as [Hc|Hc]);
      [apply method2_shape in Hc | apply method3_shape in Hc
       | apply method4_shape in Hc];
      destruct Hc as (-> & _); discriminate.
Qed.

(** * Requests in flight *)

(** ** One launch *)

(** X14. Under any interleaving, a request that arrives after a launch has
    resolved never calls the launch: its calls are those of the page. A
    request that arrives before, with a truthy [url] the log line can
    convert, begins with the launch, also when the launch of another
    request is pending. *)
Theorem launch_only_until_browser_stored (evs : list event)
        (body : list (string * json)) (e : env) :
  truthy (getProp "url" body) = true ->
  printableUrl (getProp "url" body) = true ->
  let st := fst (exec booted evs) in
  exists t,
    fst (step st (Arrive (PostExtractImages body) e))
    = {| s_browser := s_browser st; s_tasks := s_tasks st ++ [t] |}
    /\ t_done t = 0%nat
    /\ t_calls t
       = ((if launchResolved booted evs then [] else [Launch true launchArgs])
          ++ pageCalls (getProp "url" body) (innerHeight e))%list.
Proof.
  intros Ht Hp st. cbn [step arrive]. rewrite Ht, Hp. simpl negb. cbv iota.
  eexists. split; [reflexivity|]. split; [reflexivity|]. cbn [t_calls].
  pose proof (exec_browser evs booted) as Hb. simpl in Hb. fold st in Hb.
  rewrite <- Hb. destruct (s_browser st); reflexivity.
Qed.

Lemma launch_only_until_browser_stored_witness :
  let post := Arrive (PostExtractImages (Run.urlBody "http://example.com"))
                     (Run.smooth Sample.logoPage) in
  let st := fst (exec booted [post; post; Settle 0]) in
  exists t,
    fst (step st post)
    = {| s_browser := s_browser st; s_tasks := s_tasks st ++ [t] |}
    /\ t_done t = 0%nat
    /\ t_calls t = pageCalls (Some (JStr "http://example.com")) 800.
Proof.
  exact (launch_only_until_browser_stored
           [Arrive (PostExtractImages (Run.urlBody "http://example.com"))
                   (Run.smooth Sample.logoPage);
            Arrive (PostExtractImages (Run.urlBody "http://example.com"))
                   (Run.smooth Sample.logoPage);
            Settle 0]
           (Run.urlBody "http://example.com") (Run.smooth Sample.logoPage)
           eq_refl eq_refl).
Defined.

(** Two requests that arrive before any launch has resolved both launch; a
    third that arrives after the first launch has resolved does not. *)
Example overlapping_requests_both_launch :
  let post := Arrive (PostExtractImages (Run.urlBody "http://example.com"))
                     (Run.smooth Sample.logoPage) in
  map (fun t => hd_error (t_calls t))
      (s_tasks (fst (exec booted [post; post; Settle 0; post])))
  = [Some (Launch true launchArgs); Some (Launch true launchArgs);
     Some NewPage].
Proof. reflexivity. Qed.

(** ** Shutdown *)

(** X17. On SIGINT, whatever the interleaving of the requests before, the
    handler calls [browser.close()] exactly when a launch has resolved, and
    then [process.exit(0)] unless the close rejects; otherwise it only
    exits. *)
Theorem sigint_closes_launched_browser (evs : list event)
        (closeRejects : bool) :
  onSigint closeRejects (seenBy (fst (exec booted evs)))
  = if launchResolved booted evs
    then BrowserClose :: (if closeRejects then [] else [ProcessExit 0])
    else [ProcessExit 0].
Proof.
  pose proof (exec_browser evs booted) as Hb. simpl in Hb.
  unfold onSigint, seenBy. cbn [browser].
  destruct (s_browser (fst (exec booted evs))); simpl in Hb; now rewrite <- Hb.
Qed.

(** ** A request served alone *)

Lemma skipn_cons_inv {A} (d : nat) (l : list A) (c : A) (rest : list A) :
  skipn d l = c :: rest ->
  nth_error l d = Some c /\ skipn (S d) l = rest
  /\ List.length l = (d + S (List.length rest))%nat.
Proof.
  revert l; induction d as [|d IH]; intros l H.
  - simpl in H. subst l. auto.
  - destruct l as [|a l]; [discriminate|]. simpl in H.
    destruct (IH l H) as (H1 & H2 & H3). simpl. auto.
Qed.

Lemma afterCalls_cons (b : option handle) (c : call) (cs : list call) :
  afterCalls b (c :: cs)
  = afterCalls (if isLaunch c then Some Browser else b) cs.
Proof.
  unfold afterCalls. simpl. destruct (isLaunch c); simpl; [|reflexivity].
  now destruct (existsb isLaunch cs).
Qed.

Lemma exec_idle (n : nat) (st : sstate) :
  s_tasks st = [] -> exec st (repeat (Settle 0) n) = (st, []).
Proof.
  intros H. induction n as [|n IH]; [reflexivity|].
  simpl. unfold settle. rewrite H. simpl. fold (repeat (Settle 0) n).
  now rewrite IH.
Qed.

Section OneTask.
Variables (url : option json) (e : env) (calls : list call).

Let at_ (d : nat) : task :=
  {| t_url := url; t_env := e; t_calls := calls; t_done := d |}.

Lemma settle_one_resolves (b : option handle) (d : nat) (c : call)
      (rest : list call) :
  skipn d calls = c :: rest -> rejects e d = None ->
  settle 0 {| s_browser := b; s_tasks := [at_ d] |}
  = match rest with
    | [] => ({| s_browser := if isLaunch c then Some Browser else b;
               s_tasks := [] |},
             [okResponse url (extractImages (document e))])
    | _ :: _ => ({| s_browser := if isLaunch c then Some Browser else b;
                    s_tasks := [at_ (S d)] |}, [])
    end.
Proof.
  intros Hs Hr. destruct (skipn_cons_inv d calls c rest Hs) as (Hn & _ & Hl).
  unfold settle. cbn [s_tasks nth_error at_ t_env t_done t_calls t_url].
  rewrite Hr, Hn, Hl. cbn [s_browser].
  destruct rest as [|c' rest].
  - replace (S d <? d + S (List.length (@nil call)))%nat with false
      by (symmetry; apply Nat.ltb_ge; simpl; lia).
    destruct c; reflexivity.
  - replace (S d <? d + S (List.length (c' :: rest)))%nat with true
      by (symmetry; apply Nat.ltb_lt; simpl; lia).
    destruct c; reflexivity.
Qed.

Lemma settle_one_rejects (b : option handle) (d : nat) (msg : string) :
  rejects e d = Some msg ->
  settle 0 {| s_browser := b; s_tasks := [at_ d] |}
  = ({| s_browser := b; s_tasks := [] |},
     [Resp 500 (JObj [("error", JStr "Failed to extract images");
                      ("message", JStr msg)])]).
Proof.
  intros Hr. unfold settle.
  cbn [s_tasks nth_error at_ t_env t_done]. now rewrite Hr.
Qed.

(** Every pending call resolves: the request is answered 200. *)
Lemma one_task_ok (pending : list call) (d m : nat) (b : option handle) :
  skipn d calls = pending -> pending <> [] ->
  (forall k, (k < List.length pending)%nat -> rejects e (d + k) = None) ->
  (List.length pending <= m)%nat ->
  exec {| s_browser := b; s_tasks := [at_ d] |} (repeat (Settle 0) m)
  = ({| s_browser := afterCalls b pending; s_tasks := [] |},
     [okResponse url (extractImages (document e))]).
Proof.
  revert d m b; induction pending as [|c rest IH]; intros d m b Hs Hne Hall Hm;
    [congruence|].
  destruct m as [|m]; [simpl in Hm; lia|].
  cbn [repeat]. rewrite exec_cons. cbn [step].
  pose proof (Hall 0%nat ltac:(simpl; lia)) as H0.
  rewrite Nat.add_0_r in H0.
  rewrite (settle_one_resolves b d c rest Hs H0), afterCalls_cons.
  destruct rest as [|c' rest'].
  - cbn [fst snd]. rewrite exec_idle by reflexivity. reflexivity.
  - cbn [fst snd].
    rewrite (IH (S d) m); [reflexivity| | | |].
    + now destruct (skipn_cons_inv d calls c _ Hs) as (_ & H & _).
    + discriminate.
    + intros k Hk. replace (S d + k)%nat with (d + S k)%nat by lia.
      apply Hall. simpl in *. lia.
    + simpl in *. lia.
Qed.

(** The [n]-th pending call is the first to reject: the request is
    answered 500 with its message. *)
Lemma one_task_fails (pending : list call) (d m n : nat) (b : option handle)
      (msg : string) :
  skipn d calls = pending ->
  (n < List.length pending)%nat ->
  rejects e (d + n) = Some msg ->
  (forall k, (k < n)%nat -> rejects e (d + k) = None) ->
  (n < m)%nat ->
  exec {| s_browser := b; s_tasks := [at_ d] |} (repeat (Settle 0) m)
  = ({| s_browser := afterCalls b (firstn n pending); s_tasks := [] |},
     [Resp 500 (JObj [("error", JStr "Failed to extract images");
                      ("message", JStr msg)])]).
Proof.
  revert d m n b; induction pending as [|c rest IH];
    intros d m n b Hs Hn Hrej Hbefore Hm; [simpl in Hn; lia|].
  destruct m as [|m]; [lia|].
  cbn [repeat]. rewrite exec_cons. cbn [step].
  destruct n as [|n].
  - rewrite Nat.add_0_r in Hrej.
    rewrite (settle_one_rejects b d msg Hrej). cbn [fst snd].
    rewrite exec_idle by reflexivity. reflexivity.
  - pose proof (Hbefore 0%nat ltac:(lia)) as H0.
    rewrite Nat.add_0_r in H0.
    rewrite (settle_one_resolves b d c rest Hs H0).
    cbn [firstn]. rewrite afterCalls_cons.
    destruct rest as [|c' rest']; [simpl in Hn; lia|].
    cbn [fst snd].
    rewrite (IH (S d) m n); [reflexivity| | | | |].
    + now destruct (skipn_cons_inv d calls c _ Hs) as (_ & H & _).
    + simpl in *. lia.
    + rewrite <- Hrej. f_equal. lia.
    + intros k Hk. replace (S d + k)%nat with (d + S k)%nat by lia.
      apply Hbefore. lia.
    + lia.
Qed.

End OneTask.

Lemma afterCalls_handlerCalls (b : option handle) url vh :
  afterCalls b (handlerCalls b url vh) = Some Browser.
Proof. destruct b as [[]|]; reflexivity. Qed.

Lemma afterCalls_firstn_handlerCalls (b : option handle) url vh (n : nat) :
  afterCalls b (firstn n (handlerCalls b url vh))
  = match b, n with
    | None, O => None
    | _, _ => Some Browser
    end.
Proof.
  destruct b as [[]|].
  - unfold afterCalls.
    assert (H : existsb isLaunch (firstn n (handlerCalls (Some Browser) url vh))
                = false).
    { destruct (existsb isLaunch _) eqn:E; [|reflexivity].
      apply existsb_exists in E as (c & Hc & Hl). apply In_firstn in Hc.
      destruct c; try discriminate.
      now apply pageCalls_no_launch in Hc. }
    rewrite H. now destruct n.
  - destruct n as [|n]; reflexivity.
Qed.

(** X19. A request that is served while no other is in flight (it arrives,
    then its calls settle one after the other) is answered as the handler
    run to completion answers it, and leaves [browser] as the handler
    does. *)
Theorem request_alone_as_handler (req : request) (e : env)
        (b : option handle) :
  let st0 := {| s_browser := b; s_tasks := [] |} in
  let alone := exec st0 (Arrive req e :: repeat (Settle 0) 20) in
  let whole := serve req e {| browser := b; log := [] |} in
  snd alone = [fst whole]
  /\ s_browser (fst alone) = browser (snd whole)
  /\ s_tasks (fst alone) = [].
Proof.
  intros st0 alone whole. subst alone. rewrite exec_cons. cbn [step].
  destruct req as [body| |].
  - subst whole. cbn [serve arrive].
    set (s := {| browser := b; log := [] |}).
    destruct (post_cases body e s)
      as [(Ht & E)|[(Ht & Hp & E)|[(Ht & Hp & Hall & E)
                                   |(Ht & Hp & n & msg & Hn & Hrej & Hbef & E)]]];
      rewrite E, Ht; try rewrite Hp; simpl negb; cbv iota; cbn [fst snd].
    + rewrite exec_idle by reflexivity. auto.
    + rewrite exec_idle by reflexivity. auto.
    + cbn [app s_browser s_tasks st0 browser log s] in *.
      rewrite (one_task_ok _ e _ (handlerCalls b (getProp "url" body)
                                               (innerHeight e)) 0 20 b
                           eq_refl).
      * cbn [fst snd s_browser s_tasks browser].
        rewrite afterCalls_handlerCalls. auto.
      * destruct b; discriminate.
      * intros k Hk. apply Hall. exact Hk.
      * destruct b; simpl; lia.
    + cbn [app s_browser s_tasks st0 browser log s] in *.
      rewrite (one_task_fails _ e _ (handlerCalls b (getProp "url" body)
                                                  (innerHeight e)) 0 20 n b msg
                              eq_refl Hn Hrej Hbef).
      * cbn [fst snd s_browser s_tasks browser].
        rewrite afterCalls_firstn_handlerCalls. auto.
      * destruct b; simpl in Hn; lia.
  - subst whole. cbn [serve arrive fst snd]. rewrite exec_idle by reflexivity.
    auto.
  - subst whole. cbn [serve arrive fst snd]. rewrite exec_idle by reflexivity.
    auto.
Qed.
